(** * Exercise-1: asynchronous download and extraction of the Divvy archives

    A shallow embedding of [files/manager.py] ([FileManager]),
    [files/controller.py] ([FileController]) and [files/logger_view.py]
    ([LoggerView]).

    - Python exceptions are values of [exn]; a coroutine is a function from
      the shared [World] to a [Result] and the next [World].
    - The remote server, the library calls on the local disk
      ([os.makedirs], [zipfile]) and the order in which the event loop
      resumes the tasks are the environment: they are inputs of the model
      ([Env], and the schedule of a [Run]).
    - [tenacity] and [asyncio.Semaphore] are modelled from the arguments the
      source passes to them. *)

From Stdlib Require Import ZArith Lia Bool Ascii String.
From stdpp Require Import gmap strings list fin_maps.

Local Open Scope string_scope.
Local Open Scope list_scope.
Local Open Scope Z_scope.

Abbreviation byte := Init.Byte.byte.
Abbreviation bytes := (list Init.Byte.byte).

(* ===================================================================== *)
(** ** Exceptions *)
(* ===================================================================== *)

(** The instances of [Exception] that the two modules raise, catch or
    inspect.  [BaseException]s that are not [Exception]s (task cancellation,
    keyboard interrupt) are not failures of a download or an extraction and
    are not part of the model. *)
Inductive exn : Type :=
| FileNotFoundError (msg : string)                  (* builtin *)
| ConnectionError (msg : string)                    (* builtin *)
| ClientResponseError (status : Z) (msg : string)   (* aiohttp *)
| ClientConnectorError (msg : string)               (* aiohttp.client_exceptions *)
| TimeoutError                                      (* asyncio *)
| ClientPayloadError (msg : string)                 (* aiohttp, not caught by download_file *)
| BadZipFile (msg : string)                         (* zipfile *)
| OtherError (class_name msg : string)              (* see below *)
| RetryError (last_attempt : exn).                  (* tenacity *)

(** [OtherError] stands for an instance of any other class of [Exception]
    that is no subclass of the classes above: [FileExistsError],
    [IsADirectoryError], [PermissionError], [RuntimeError],
    [NotImplementedError] and the like.  The source tests for none of
    them, so that only the name and the text are kept. *)

(** [isinstance(error, cls)] for the classes the source tests. *)
Definition is_FileNotFoundError (e : exn) : bool :=
  match e with FileNotFoundError _ => true | _ => false end.
Definition is_ConnectionError (e : exn) : bool :=
  match e with ConnectionError _ => true | _ => false end.
Definition is_ClientResponseError (e : exn) : bool :=
  match e with ClientResponseError _ _ => true | _ => false end.
Definition is_ClientConnectorError (e : exn) : bool :=
  match e with ClientConnectorError _ => true | _ => false end.
Definition is_TimeoutError (e : exn) : bool :=
  match e with TimeoutError => true | _ => false end.
Definition is_RetryError (e : exn) : bool :=
  match e with RetryError _ => true | _ => false end.

(** [str(error)], as interpolated in the messages.  The text of the library
    exceptions is abbreviated. *)
Fixpoint str (e : exn) : string :=
  match e with
  | FileNotFoundError msg => msg
  | ConnectionError msg => msg
  | ClientResponseError _ msg => msg
  | ClientConnectorError msg => msg
  | TimeoutError => ""
  | ClientPayloadError msg => msg
  | BadZipFile msg => msg
  | OtherError _ msg => msg
  | RetryError last => "RetryError[" +:+ str last +:+ "]"
  end.

(* ===================================================================== *)
(** ** Strings and paths *)
(* ===================================================================== *)

(** [template.format(arg)] for a template whose replacement fields are all
    the automatic field [{}] (BASE_URI has exactly one). *)
Fixpoint str_format (template arg : string) : string :=
  match template with
  | EmptyString => EmptyString
  | String c rest =>
      match rest with
      | String c' rest' =>
          if (Ascii.eqb c "{" && Ascii.eqb c' "}")%bool
          then arg +:+ str_format rest' arg
          else String c (str_format rest arg)
      | EmptyString => String c EmptyString
      end
  end.

Definition startswith (s p : string) : bool := String.prefix p s.

Fixpoint endswith_sep (s : string) : bool :=
  match s with
  | EmptyString => false
  | String c EmptyString => Ascii.eqb c "/"
  | String _ rest => endswith_sep rest
  end.

(** [os.path.join(a, b)] (posixpath): an absolute [b] discards [a]; no
    separator is added after an empty [a] or one that ends with it. *)
Definition os_path_join (a b : string) : string :=
  if startswith b "/" then b
  else if (String.eqb a "" || endswith_sep a)%bool then a +:+ b
  else a +:+ "/" +:+ b.

(* ===================================================================== *)
(** ** The environment: remote server and local disk *)
(* ===================================================================== *)

(** How the body of a response ends: at end of stream, or with an exception
    raised by the stream reader after the data received so far. *)
Inductive StreamEnd : Type :=
| Eof
| Broken (error : exn).

(** A response as [session.get] hands it over: the status and the body as
    it arrives from the network (one list per arrival). *)
Record ClientResponse : Type := {
  status : Z;
  content : list bytes;
  content_end : StreamEnd
}.

(** What one GET does: it raises before a response is available, or it
    yields a response. *)
Inductive GetResult : Type :=
| GetRaises (error : exn)
| GetResponse (response : ClientResponse).

(** What [os.makedirs] and [zipfile] raise.  They work on the local disk:
    what they raise is no [ConnectionError] (an [OSError] of a socket) and
    no [RetryError] of tenacity. *)
Inductive LocalError : Type :=
| NoSuchFile (msg : string)                 (* FileNotFoundError *)
| NotAZipFile (msg : string)                (* zipfile.BadZipFile *)
| LocalOther (class_name msg : string).     (* FileExistsError, IsADirectoryError,
                                               RuntimeError, NotImplementedError, ... *)

(** The exception as the caller sees it. *)
Definition raised (e : LocalError) : exn :=
  match e with
  | NoSuchFile msg => FileNotFoundError msg
  | NotAZipFile msg => BadZipFile msg
  | LocalOther class_name msg => OtherError class_name msg
  end.

Record Env : Type := {
  (** the answer to the [n]-th GET (counted from 0) of a URI *)
  http_get : string -> nat -> GetResult;
  (** [os.makedirs(name, exist_ok=True)] on a disk that holds these files:
      the exception that it raises, if any *)
  os_makedirs : gmap string bytes -> string -> option LocalError;
  (** [zipfile.ZipFile(file, 'r')] on a file of these contents: the
      exception that it raises, if any *)
  zip_open : bytes -> option LocalError;
  (** [extractall(path)] of an archive of these contents, on a disk that
      holds these files: the files that it leaves, and the exception that it
      raises, if any *)
  zip_extractall : bytes -> string -> gmap string bytes
                   -> gmap string bytes * option LocalError
}.

(* ===================================================================== *)
(** ** The shared world *)
(* ===================================================================== *)

(** The outcome of an item, as reported to the logger. *)
Inductive Outcome : Type :=
| Success
| NotFound
| RetriesExhausted (cause : exn)
| ConnectionFailure (cause : exn)
| UnexpectedFailure (cause : exn).

Inductive Event : Type :=
| PipelineStart
| PipelineEnd
| ItemEvent (file_name : string) (outcome : Outcome).

Inductive Level : Type := INFO | ERROR.

(** One call of [LoggerView.log_info] or [LoggerView.log_error]: the level,
    the message, and the place of the call in the controller. *)
Record LogRecord : Type := {
  level : Level;
  message : string;
  event : Event
}.

Record World : Type := {
  files : gmap string bytes;     (* the files of the disk: path -> contents *)
  requests : list string;        (* URIs of the GETs issued, oldest first *)
  sleeps : list Z;               (* seconds slept between attempts, oldest first *)
  records : list LogRecord;      (* log calls, oldest first *)
  semaphore : nat;               (* value of FileController.semaphore *)
  writes : list (string * bytes) (* calls of file.write: path and chunk, oldest first *)
}.

Definition set_files (f : gmap string bytes -> gmap string bytes) (w : World) : World :=
  {| files := f (files w); requests := requests w; sleeps := sleeps w;
     records := records w; semaphore := semaphore w; writes := writes w |}.
Definition add_request (uri : string) (w : World) : World :=
  {| files := files w; requests := requests w ++ [uri]; sleeps := sleeps w;
     records := records w; semaphore := semaphore w; writes := writes w |}.
Definition add_sleep (seconds : Z) (w : World) : World :=
  {| files := files w; requests := requests w; sleeps := sleeps w ++ [seconds];
     records := records w; semaphore := semaphore w; writes := writes w |}.
Definition add_record (r : LogRecord) (w : World) : World :=
  {| files := files w; requests := requests w; sleeps := sleeps w;
     records := records w ++ [r]; semaphore := semaphore w; writes := writes w |}.
Definition set_semaphore (n : nat) (w : World) : World :=
  {| files := files w; requests := requests w; sleeps := sleeps w;
     records := records w; semaphore := n; writes := writes w |}.
Definition add_write (path : string) (chunk : bytes) (w : World) : World :=
  {| files := files w; requests := requests w; sleeps := sleeps w;
     records := records w; semaphore := semaphore w;
     writes := writes w ++ [(path, chunk)] |}.

(* ===================================================================== *)
(** ** Coroutines *)
(* ===================================================================== *)

(** A coroutine returns, raises, or stays suspended for ever. *)
Inductive Result (A : Type) : Type :=
| Return (a : A)
| Raise (error : exn)
| Blocked.
Arguments Return {A} a.
Arguments Raise {A} error.
Arguments Blocked {A}.

Definition M (A : Type) : Type := World -> Result A * World.

Definition ret {A} (a : A) : M A := fun w => (Return a, w).
Definition raise {A} (e : exn) : M A := fun w => (Raise e, w).
Definition bind {A B} (m : M A) (k : A -> M B) : M B :=
  fun w =>
    match m w with
    | (Return a, w') => k a w'
    | (Raise e, w') => (Raise e, w')
    | (Blocked, w') => (Blocked, w')
    end.

Notation "'let!' x ':=' m 'in' k" := (bind m (fun x => k))
  (at level 10, x name, m at level 100, k at level 200).
Notation "m ';;' k" := (bind m (fun _ => k))
  (at level 100, k at level 200, right associativity).

(** [try: body except ...: handler]: [handler error] is [None] when no
    except clause matches, and the exception propagates. *)
Definition try_except {A} (body : M A) (handler : exn -> option (M A)) : M A :=
  fun w =>
    match body w with
    | (Raise e, w') =>
        match handler e with
        | Some h => h w'
        | None => (Raise e, w')
        end
    | r => r
    end.

(** [try: body finally: cleanup] for a cleanup that does not raise. *)
Definition try_finally {A} (body : M A) (cleanup : World -> World) : M A :=
  fun w =>
    match body w with
    | (Blocked, w') => (Blocked, w')
    | (r, w') => (r, cleanup w')
    end.

(* ===================================================================== *)
(** ** files/manager.py *)
(* ===================================================================== *)

Record FileManager : Type := {
  download_dir : string;
  verify_ssl : bool;
  max_workers : nat
}.

(** [FileManager(download_dir, verify_ssl=False, max_workers=5)] *)
Definition FileManager_init (download_dir : string) : FileManager :=
  {| download_dir := download_dir; verify_ssl := false; max_workers := 5 |}.

Definition BASE_URI : string := "https://divvy-tripdata.s3.amazonaws.com/{}".

(** [session.get(uri, ssl=ssl_context)]: the request is counted, and the
    server decides from the URI and the number of earlier GETs of it. *)
Definition session_get (env : Env) (uri : string) : M ClientResponse :=
  fun w =>
    let n := count_occ String.string_dec (requests w) uri in
    match http_get env uri n with
    | GetRaises e => (Raise e, add_request uri w)
    | GetResponse r => (Return r, add_request uri w)
    end.

(** [response.raise_for_status()]: raises for a status of 400 or more. *)
Definition raise_for_status (response : ClientResponse) : M unit :=
  if 400 <=? status response
  then raise (ClientResponseError (status response) "")
  else ret tt.

(** [aiofiles.open(path, 'wb')] where the file can be opened for writing:
    it is created or truncated.  The disk of the model has a place for a
    file at every path; an [open] that fails for want of one (the directory
    of the path is missing, or the path is a directory) is not modelled. *)
Definition open_wb (path : string) : M unit :=
  fun w => (Return tt, set_files (fun fs => <[path := []]> fs) w).

(** [file.write(chunk)] on a file opened by [open_wb]: the call is noted,
    and the chunk is appended. *)
Definition file_write (path : string) (chunk : bytes) : M unit :=
  fun w => (Return tt,
            set_files (fun fs => <[path := default [] (fs !! path) ++ chunk]> fs)
              (add_write path chunk w)).

(** The pieces of at most [n] bytes of one arrival. *)
Fixpoint split_every (fuel n : nat) (data : bytes) : list bytes :=
  match fuel with
  | O => []
  | S fuel' =>
      match data with
      | [] => []
      | _ => take n data :: split_every fuel' n (drop n data)
      end
  end.

(** [response.content.iter_chunked(n)]: every read returns at most [n] of
    the bytes that have arrived. *)
Definition iter_chunked (n : nat) (response : ClientResponse) : list bytes :=
  flat_map (fun arrival => split_every (length arrival) n arrival) (content response).

(** [async for chunk in ...: if chunk: await file.write(chunk)] *)
Fixpoint write_chunks (path : string) (chunks : list bytes) : M unit :=
  match chunks with
  | [] => ret tt
  | chunk :: rest =>
      (match chunk with
       | [] => ret tt
       | _ => file_write path chunk
       end) ;;
      write_chunks path rest
  end.

(** The end of the [async for]: the iterator stops or raises. *)
Definition stream_end (response : ClientResponse) : M unit :=
  match content_end response with
  | Eof => ret tt
  | Broken e => raise e
  end.

(** The body of [download_file]: one attempt. *)
Definition download_attempt (env : Env) (self : FileManager) (file_name : string) : M string :=
  let uri := str_format BASE_URI file_name in
  let zip_path := os_path_join (download_dir self) file_name in
  try_except
    (let! response := session_get env uri in
     (if status response =? 404
      then raise (FileNotFoundError ("File " +:+ file_name +:+ " not found on the server."))
      else ret tt) ;;
     raise_for_status response ;;
     open_wb zip_path ;;
     write_chunks zip_path (iter_chunked 1024 response) ;;
     stream_end response)
    (fun error =>
       if (is_ClientResponseError error || is_ClientConnectorError error
           || is_TimeoutError error)%bool
       then Some (raise (ConnectionError
                           ("Error downloading " +:+ file_name +:+ ": " +:+ str error)))
       else None) ;;
  ret zip_path.

(** *** tenacity *)

(** [stop_after_attempt(max_attempt_number)] *)
Definition stop_after_attempt (max_attempt_number attempt_number : nat) : bool :=
  (max_attempt_number <=? attempt_number)%nat.

(** [wait_exponential(multiplier, min, max)]: the seconds to wait after
    attempt [attempt_number] (exp_base 2). *)
Definition wait_exponential (multiplier min max : Z) (attempt_number : nat) : Z :=
  Z.max (Z.max 0 min) (Z.min (multiplier * 2 ^ (Z.of_nat attempt_number - 1)) max).

(** [@retry(stop=..., wait=...)]: the default [retry] predicate retries on
    every exception, and [reraise] is off, so that the last exception leaves
    wrapped in a [RetryError].  [fuel] bounds the attempts that follow this
    one; a loop that is out of fuel has not returned. *)
Fixpoint retrying {A} (stop : nat -> bool) (wait : nat -> Z) (fn : M A)
    (fuel attempt_number : nat) : M A :=
  fun w =>
    match fn w with
    | (Raise e, w') =>
        if stop attempt_number then (Raise (RetryError e), w')
        else
          match fuel with
          | O => (Blocked, w')
          | S fuel' =>
              retrying stop wait fn fuel' (S attempt_number)
                (add_sleep (wait attempt_number) w')
          end
    | r => r
    end.

(** [FileManager.download_file], as decorated. *)
Definition download_file (env : Env) (self : FileManager) (file_name : string) : M string :=
  retrying (stop_after_attempt 3) (wait_exponential 1 1 10)
    (download_attempt env self file_name) 3 1.

(** *** zipfile *)

(** [zipfile.ZipFile(file_path, 'r')]: a path that is not in [files] does
    not exist; the archive that is opened stands for the contents of the
    file. *)
Definition ZipFile (env : Env) (file_path : string) : M bytes :=
  fun w =>
    match files w !! file_path with
    | None =>
        (Raise (FileNotFoundError
                  ("[Errno 2] No such file or directory: " +:+ file_path)), w)
    | Some data =>
        match zip_open env data with
        | Some e => (Raise (raised e), w)
        | None => (Return data, w)
        end
    end.

(** [zip_ref.extractall(path)]: what has been written when it raises stays
    on the disk. *)
Definition extractall (env : Env) (zip_ref : bytes) (path : string) : M unit :=
  fun w =>
    let (fs, error) := zip_extractall env zip_ref path (files w) in
    (match error with
     | Some e => Raise (raised e)
     | None => Return tt
     end, set_files (fun _ => fs) w).

(** [os.remove(file_path)] *)
Definition os_remove (file_path : string) : M unit :=
  fun w =>
    match files w !! file_path with
    | None =>
        (Raise (FileNotFoundError
                  ("[Errno 2] No such file or directory: " +:+ file_path)), w)
    | Some _ => (Return tt, set_files (fun fs => delete file_path fs) w)
    end.

(** [FileManager.extract_zip] *)
Definition extract_zip (env : Env) (self : FileManager) (file_path : string) : M unit :=
  (let! zip_ref := ZipFile env file_path in
   extractall env zip_ref (download_dir self)) ;;
  os_remove file_path.

(** [FileManager.extract_zip_in_thread]: the coroutine resumes with the
    result, or the exception, of [extract_zip] run by the executor. *)
Definition extract_zip_in_thread (env : Env) (self : FileManager) (file_path : string) : M unit :=
  extract_zip env self file_path.

(* ===================================================================== *)
(** ** files/logger_view.py *)
(* ===================================================================== *)

Definition log_info (ev : Event) (msg : string) : M unit :=
  fun w => (Return tt, add_record {| level := INFO; message := msg; event := ev |} w).

Definition log_error (ev : Event) (msg : string) : M unit :=
  fun w => (Return tt, add_record {| level := ERROR; message := msg; event := ev |} w).

(* ===================================================================== *)
(** ** files/controller.py *)
(* ===================================================================== *)

Definition FILE_NAMES : list string :=
  [ "Divvy_Trips_2018_Q4.zip";
    "Divvy_Trips_2019_Q1.zip";
    "Divvy_Trips_2019_Q2.zip";
    "Divvy_Trips_2019_Q3.zip";
    "Divvy_Trips_2019_Q4.zip";
    "Divvy_Trips_2020_Q1.zip";
    "Divvy_Trips_2220_Q1.zip" ].

(** [FILE_NAMES] is read through [self]; it is a field here, so that the
    results hold for every list the class attribute may be given. *)
Record FileController : Type := {
  file_names : list string;
  file_manager : FileManager
}.

(** [asyncio.Semaphore(5)] *)
Definition SEMAPHORE_VALUE : nat := 5.

(** [FileController()] *)
Definition FileController_init : FileController :=
  {| file_names := FILE_NAMES; file_manager := FileManager_init "downloads" |}.

(** The world in which [FileController()] leaves a fresh process. *)
Definition initial_world (fs : gmap string bytes) : World :=
  {| files := fs; requests := []; sleeps := []; records := [];
     semaphore := SEMAPHORE_VALUE; writes := [] |}.

(** [Semaphore.acquire]: suspended while the value is 0. *)
Definition semaphore_acquire : M unit :=
  fun w =>
    match semaphore w with
    | O => (Blocked, w)
    | S n => (Return tt, set_semaphore n w)
    end.

(** [Semaphore.release] *)
Definition semaphore_release (w : World) : World :=
  set_semaphore (S (semaphore w)) w.

(** [async with self.semaphore: body] *)
Definition async_with_semaphore {A} (body : M A) : M A :=
  semaphore_acquire ;; try_finally body semaphore_release.

(** The except clauses of [process_file], in their order. *)
Definition except_clauses (file_name : string) (error : exn) : option (M unit) :=
  match error with
  | FileNotFoundError _ =>
      Some (log_error (ItemEvent file_name NotFound)
              (file_name +:+ " not found on the server."))
  | RetryError last_attempt =>
      Some (if is_FileNotFoundError last_attempt
            then log_error (ItemEvent file_name (RetriesExhausted last_attempt))
                   (file_name +:+ " not found after retries.")
            else log_error (ItemEvent file_name (RetriesExhausted last_attempt))
                   ("Unexpected retry error with " +:+ file_name +:+ ": " +:+ str error))
  | ConnectionError _ =>
      Some (log_error (ItemEvent file_name (ConnectionFailure error))
              ("Connection error with " +:+ file_name +:+ ": " +:+ str error))
  | _ =>
      Some (log_error (ItemEvent file_name (UnexpectedFailure error))
              ("Unexpected error with " +:+ file_name +:+ ": " +:+ str error))
  end.

(** [FileController.process_file] *)
Definition process_file (env : Env) (self : FileController) (file_name : string) : M unit :=
  try_except
    (let! zip_path :=
       async_with_semaphore (download_file env (file_manager self) file_name) in
     extract_zip_in_thread env (file_manager self) zip_path ;;
     log_info (ItemEvent file_name Success) ("Processed " +:+ file_name))
    (except_clauses file_name).

(* ===================================================================== *)
(** ** process_files: the tasks under the event loop *)
(* ===================================================================== *)

(** A task of [asyncio.gather] is a [process_file] coroutine, suspended at
    one of its awaits: before the semaphore, inside the with block before an
    attempt of the download, or at the executor.  The event loop resumes one
    task at a time; which one is the schedule's choice.  Between these
    points a task only touches its own request and its own files, so one
    attempt of the download and one extraction are one step each.  A task
    that waits for the semaphore may run as soon as the value is positive,
    in any order with the other waiting tasks. *)
Inductive Stage : Type :=
| Pending
| Downloading (attempt_number : nat)
| Extracting (zip_path : string)
| Done
| Failed
| Crashed (error : exn).            (* an exception left process_file *)

Record Task : Type := {
  task_name : string;
  stage : Stage;
  holds_slot : bool                 (* acquired the semaphore, not yet released *)
}.

Inductive MainStage : Type :=
| NotStarted
| Gathering                         (* awaiting asyncio.gather *)
| Returned
| Aborted (error : exn).            (* an exception left process_files *)

Record Run : Type := {
  world : World;
  tasks : list Task;
  main : MainStage
}.

Definition is_terminal (t : Task) : bool :=
  match stage t with
  | Done | Failed => true
  | _ => false
  end.

Definition is_downloading (t : Task) : bool :=
  match stage t with
  | Downloading _ => true
  | _ => false
  end.

(** The except clauses applied to an exception that reached them. *)
Definition handle (file_name : string) (error : exn) : M unit :=
  match except_clauses file_name error with
  | Some handler => handler
  | None => raise error
  end.

Definition settle (file_name : string) (r : Result unit * World) : Task * World :=
  match r with
  | (Raise e, w) => ({| task_name := file_name; stage := Crashed e; holds_slot := false |}, w)
  | (_, w) => ({| task_name := file_name; stage := Failed; holds_slot := false |}, w)
  end.

(** One resumption of a task, up to its next await; [None] when the task
    cannot run (it waits for the semaphore, or it is over). *)
Definition step_task (env : Env) (self : FileController) (t : Task) (w : World)
  : option (Task * World) :=
  let file_name := task_name t in
  match stage t with
  | Pending =>
      match semaphore_acquire w with
      | (Return _, w') =>
          Some ({| task_name := file_name; stage := Downloading 1; holds_slot := true |}, w')
      | _ => None
      end
  | Downloading attempt_number =>
      match download_attempt env (file_manager self) file_name w with
      | (Return zip_path, w') =>
          Some ({| task_name := file_name; stage := Extracting zip_path;
                   holds_slot := false |}, semaphore_release w')
      | (Raise e, w') =>
          if stop_after_attempt 3 attempt_number
          then Some (settle file_name
                       (handle file_name (RetryError e) (semaphore_release w')))
          else Some ({| task_name := file_name; stage := Downloading (S attempt_number);
                        holds_slot := true |},
                     add_sleep (wait_exponential 1 1 10 attempt_number) w')
      | (Blocked, _) => None
      end
  | Extracting zip_path =>
      match (extract_zip_in_thread env (file_manager self) zip_path ;;
             log_info (ItemEvent file_name Success) ("Processed " +:+ file_name)) w with
      | (Return _, w') =>
          Some ({| task_name := file_name; stage := Done; holds_slot := false |}, w')
      | (Raise e, w') => Some (settle file_name (handle file_name e w'))
      | (Blocked, _) => None
      end
  | Done | Failed | Crashed _ => None
  end.

(** [FileManager.ensure_dir_exists]: the exception of [os.makedirs] is
    its own; the directories are not part of [files]. *)
Definition ensure_dir_exists (env : Env) (self : FileManager) : M unit :=
  fun w =>
    match os_makedirs env (files w) (download_dir self) with
    | Some e => (Raise (raised e), w)
    | None => (Return tt, w)
    end.

Definition new_task (file_name : string) : Task :=
  {| task_name := file_name; stage := Pending; holds_slot := false |}.

(** The exception that [asyncio.gather] re-raises, if a task raised one. *)
Fixpoint first_crash (ts : list Task) : option exn :=
  match ts with
  | [] => None
  | t :: rest =>
      match stage t with
      | Crashed e => Some e
      | _ => first_crash rest
      end
  end.

(** What the event loop resumes next: the main coroutine [process_files],
    or the task at an index of [tasks]. *)
Inductive Choice : Type :=
| ResumeMain
| ResumeTask (i : nat).

(** [FileController.process_files] between its awaits: it starts, makes
    the directory, logs and creates the tasks; it is resumed by [gather]
    when a task has raised or when all are over. *)
Definition step_main (env : Env) (self : FileController) (r : Run) : option Run :=
  match main r with
  | NotStarted =>
      match (ensure_dir_exists env (file_manager self) ;;
             log_info PipelineStart "Starting to process files") (world r) with
      | (Return _, w') =>
          Some {| world := w'; tasks := map new_task (file_names self); main := Gathering |}
      | (Raise e, w') => Some {| world := w'; tasks := tasks r; main := Aborted e |}
      | (Blocked, _) => None
      end
  | Gathering =>
      match first_crash (tasks r) with
      | Some e => Some {| world := world r; tasks := tasks r; main := Aborted e |}
      | None =>
          if forallb is_terminal (tasks r)
          then
            match log_info PipelineEnd "Finished processing files" (world r) with
            | (Return _, w') => Some {| world := w'; tasks := tasks r; main := Returned |}
            | (Raise e, w') => Some {| world := w'; tasks := tasks r; main := Aborted e |}
            | (Blocked, _) => None
            end
          else None
      end
  | Returned | Aborted _ => None
  end.

Definition step (env : Env) (self : FileController) (c : Choice) (r : Run) : option Run :=
  match c with
  | ResumeMain => step_main env self r
  | ResumeTask i =>
      match main r with
      | Gathering =>
          t ← tasks r !! i;
          '(t', w') ← step_task env self t (world r);
          Some {| world := w'; tasks := <[i := t']> (tasks r); main := main r |}
      | _ => None
      end
  end.

(** A run under a schedule; a choice that cannot run is passed over. *)
Fixpoint run_schedule (env : Env) (self : FileController) (schedule : list Choice)
    (r : Run) : Run :=
  match schedule with
  | [] => r
  | c :: rest =>
      match step env self c r with
      | Some r' => run_schedule env self rest r'
      | None => run_schedule env self rest r
      end
  end.

(** [asyncio.run(main())] in a fresh process. *)
Definition initial_run (fs : gmap string bytes) : Run :=
  {| world := initial_world fs; tasks := []; main := NotStarted |}.

Definition reachable (env : Env) (self : FileController) (fs : gmap string bytes)
    (r : Run) : Prop :=
  exists schedule, run_schedule env self schedule (initial_run fs) = r.

(** The event loop's own order: the main coroutine when it can run, else
    the first task that can. *)
Fixpoint first_runnable (env : Env) (self : FileController) (w : World)
    (ts : list Task) (i : nat) : option nat :=
  match ts with
  | [] => None
  | t :: rest =>
      match step_task env self t w with
      | Some _ => Some i
      | None => first_runnable env self w rest (S i)
      end
  end.

Definition next_choice (env : Env) (self : FileController) (r : Run) : option Choice :=
  match step_main env self r with
  | Some _ => Some ResumeMain
  | None =>
      match main r with
      | Gathering => ResumeTask <$> first_runnable env self (world r) (tasks r) 0
      | _ => None
      end
  end.

(** [fuel] resumptions in that order, or fewer when nothing can run. *)
Fixpoint run_loop (env : Env) (self : FileController) (fuel : nat) (r : Run) : Run :=
  match fuel with
  | O => r
  | S fuel' =>
      match next_choice env self r with
      | Some c =>
          match step env self c r with
          | Some r' => run_loop env self fuel' r'
          | None => r
          end
      | None => r
      end
  end.

(** The resumptions a task may still need. *)
Definition task_budget (t : Task) : nat :=
  match stage t with
  | Pending => 5
  | Downloading attempt_number => 2 + (3 - attempt_number)
  | Extracting _ => 1
  | Done | Failed | Crashed _ => 0
  end.

Definition run_budget (r : Run) : nat :=
  match main r with
  | NotStarted => 0
  | Gathering => 1 + sum_list_with task_budget (tasks r)
  | Returned | Aborted _ => 0
  end.

(* ===================================================================== *)
(** ** Vocabulary of the statements *)
(* ===================================================================== *)

(** The remote URI of an item. *)
Definition uri_of (file_name : string) : string := str_format BASE_URI file_name.

(** The exceptions that the except clause of [download_file] catches. *)
Definition caught_by_download (e : exn) : bool :=
  is_ClientResponseError e || is_ClientConnectorError e || is_TimeoutError e.

(** What leaves the try statement of [download_file] when [e] is raised in it. *)
Definition reclassify (file_name : string) (e : exn) : exn :=
  if caught_by_download e
  then ConnectionError ("Error downloading " +:+ file_name +:+ ": " +:+ str e)
  else e.






(** The chunks that [download_file] writes: [if chunk:] passes over an
    empty one. *)
Definition nonempty (chunk : bytes) : bool :=
  match chunk with
  | [] => false
  | _ => true
  end.

(** Several calls of [file.write], one after the other. *)
Definition add_writes (new : list (string * bytes)) (w : World) : World :=
  {| files := files w; requests := requests w; sleeps := sleeps w;
     records := records w; semaphore := semaphore w; writes := writes w ++ new |}.

(** The lengths of the pieces in which a body is read, [n] bytes at a time:
    each arrival in pieces of [n] bytes and, if something is left, one
    shorter piece. *)
Definition piece_lengths (n : nat) (body : list bytes) : list nat :=
  flat_map (fun arrival =>
              replicate (length arrival / n) n
              ++ (if (length arrival mod n =? 0)%nat then []
                  else [(length arrival mod n)%nat]))
           body.

(** The fields of the world that an extraction leaves alone. *)
Definition same_but_files (w w' : World) : Prop :=
  requests w' = requests w /\ sleeps w' = sleeps w /\
  records w' = records w /\ semaphore w' = semaphore w.

(** [zipfile] creates and overwrites files; it removes none. *)
Definition extraction_only_writes (env : Env) : Prop :=
  forall data path fs q,
    is_Some (fs !! q) -> is_Some ((zip_extractall env data path fs).1 !! q).

(** What one attempt of the download leaves of the world. *)
Record attempt_frame (self : FileManager) (file_name : string) (w w' : World) : Prop := {
  af_requests : requests w' = requests w ++ [uri_of file_name];
  af_sleeps : sleeps w' = sleeps w;
  af_records : records w' = records w;
  af_semaphore : semaphore w' = semaphore w;
  af_files : forall path, path <> os_path_join (download_dir self) file_name ->
                          files w' !! path = files w !! path
}.

(** The three failures of a GET that the fetcher classifies as connection
    failures: an error status other than 404, a failure to connect, and a
    timeout, before the response or while its body is read. *)
Inductive connection_failure_source : GetResult -> Prop :=
| source_error_status (r : ClientResponse) :
    400 <= status r -> status r <> 404 -> connection_failure_source (GetResponse r)
| source_connect (msg : string) :
    connection_failure_source (GetRaises (ClientConnectorError msg))
| source_timeout :
    connection_failure_source (GetRaises TimeoutError)
| source_timeout_body (r : ClientResponse) :
    status r < 400 -> content_end r = Broken TimeoutError ->
    connection_failure_source (GetResponse r).

(** The item of a record of the log, if it reports one. *)
Definition record_item (r : LogRecord) : option string :=
  match event r with
  | ItemEvent file_name _ => Some file_name
  | _ => None
  end.

Definition reports_connection_failure (r : LogRecord) : bool :=
  match event r with
  | ItemEvent _ (ConnectionFailure _) => true
  | _ => false
  end.

Definition slot_count (t : Task) : nat := if holds_slot t then 1 else 0.

Definition is_crashed (t : Task) : bool :=
  match stage t with
  | Crashed _ => true
  | _ => false
  end.

Definition is_extracting (t : Task) : bool :=
  match stage t with
  | Extracting _ => true
  | _ => false
  end.

(* ===================================================================== *)
(** ** Sample environments *)
(* ===================================================================== *)

Definition sample_body : bytes := [Byte.x50; Byte.x4b; Byte.x03; Byte.x04].

(** [os.makedirs] on a disk where only a regular file of the name can be in
    the way. *)
Definition sample_makedirs (fs : gmap string bytes) (name : string) : option LocalError :=
  match fs !! name with
  | Some _ => Some (LocalOther "FileExistsError" ("[Errno 17] File exists: " +:+ name))
  | None => None
  end.

(** A sample of [zipfile]: a file that starts with the byte [P] is an
    archive of one member, [trips.csv], holding the file's own bytes; a file
    that starts with a zero byte is an archive whose member is damaged, of
    which the extraction leaves an empty [trips.csv]; any other file is no
    archive. *)
Definition sample_zip_open (data : bytes) : option LocalError :=
  match data with
  | Byte.x50 :: _ | Byte.x00 :: _ => None
  | _ => Some (NotAZipFile "File is not a zip file")
  end.

Definition sample_extractall (data : bytes) (path : string) (fs : gmap string bytes)
  : gmap string bytes * option LocalError :=
  match data with
  | Byte.x50 :: _ => (<[os_path_join path "trips.csv" := data]> fs, None)
  | Byte.x00 :: _ =>
      (<[os_path_join path "trips.csv" := []]> fs,
       Some (NotAZipFile "Bad CRC-32 for file 'trips.csv'"))
  | _ => (fs, Some (NotAZipFile "File is not a zip file"))
  end.

(** A server in front of the sample disk. *)
Definition sample_env (get : string -> nat -> GetResult) : Env :=
  {| http_get := get; os_makedirs := sample_makedirs;
     zip_open := sample_zip_open; zip_extractall := sample_extractall |}.

(** The server has none of the files. *)
Definition server_404 : Env :=
  sample_env (fun _ _ => GetResponse {| status := 404; content := []; content_end := Eof |}).

(** The server is overloaded. *)
Definition server_503 : Env :=
  sample_env (fun _ _ => GetResponse {| status := 503; content := []; content_end := Eof |}).

(** The first GET of a URI times out after two bytes of the body; the later
    ones deliver the whole body. *)
Definition server_flaky : Env :=
  sample_env (fun _ n =>
    match n with
    | O => GetResponse {| status := 200; content := [take 2 sample_body];
                          content_end := Broken TimeoutError |}
    | _ => GetResponse {| status := 200; content := [take 3 sample_body; drop 3 sample_body];
                          content_end := Eof |}
    end).


(** The server delivers an archive whose member is damaged. *)
Definition server_damaged : Env :=
  sample_env (fun _ _ =>
    GetResponse {| status := 200; content := [[Byte.x00; Byte.x01]]; content_end := Eof |}).

(** The missing archive is missing; the other files are delivered. *)
Definition server_divvy : Env :=
  sample_env (fun uri _ =>
    if String.eqb uri "https://divvy-tripdata.s3.amazonaws.com/Divvy_Trips_2220_Q1.zip"
    then GetResponse {| status := 404; content := []; content_end := Eof |}
    else GetResponse {| status := 200; content := [sample_body]; content_end := Eof |}).

(** The server delivers 2500 bytes in one arrival of 2000 and one of 500. *)
Definition server_large : Env :=
  sample_env (fun _ _ =>
    GetResponse {| status := 200;
                   content := [replicate 2000 Byte.x50; replicate 500 Byte.x4b];
                   content_end := Eof |}).

(* ===================================================================== *)
(** ** Invariant of the runs *)
(* ===================================================================== *)

Definition start_record : LogRecord :=
  {| level := INFO; message := "Starting to process files"; event := PipelineStart |}.

Definition end_record : LogRecord :=
  {| level := INFO; message := "Finished processing files"; event := PipelineEnd |}.

(** The names of the tasks that are over, in the order of [tasks]. *)
Definition finished_names (ts : list Task) : list string :=
  map task_name (List.filter is_terminal ts).

(** The records of the items: each reports an item, and the items reported
    are, up to their order, those of the tasks that are over. *)
Definition item_records_of (ts : list Task) (items : list LogRecord) : Prop :=
  Forall (fun rec => is_Some (record_item rec)) items /\
  omap record_item items ≡ₚ finished_names ts.

Record run_invariant (env : Env) (self : FileController) (fs : gmap string bytes)
    (r : Run) : Prop := {
  inv_slots :
    (semaphore (world r) + sum_list_with slot_count (tasks r) = SEMAPHORE_VALUE)%nat;
  inv_holders : Forall (fun t => holds_slot t = is_downloading t) (tasks r);
  inv_no_crash : Forall (fun t => is_crashed t = false) (tasks r);
  inv_names :
    match main r with
    | NotStarted | Aborted _ => tasks r = []
    | _ => map task_name (tasks r) = file_names self
    end;
  inv_log :
    match main r with
    | NotStarted => world r = initial_world fs
    | Gathering =>
        os_makedirs env fs (download_dir (file_manager self)) = None /\
        exists items,
          records (world r) = start_record :: items /\ item_records_of (tasks r) items
    | Returned =>
        os_makedirs env fs (download_dir (file_manager self)) = None /\
        exists items,
          records (world r) = start_record :: items ++ [end_record] /\
          item_records_of (tasks r) items /\
          forallb is_terminal (tasks r) = true
    | Aborted e =>
        world r = initial_world fs /\
        exists error,
          os_makedirs env fs (download_dir (file_manager self)) = Some error /\
          e = raised error
    end;
  inv_no_connection_failure :
    Forall (fun rec => reports_connection_failure rec = false) (records (world r))
}.

(* ===================================================================== *)
(** ** Sample runs *)
(* ===================================================================== *)

(** A task resumed on its own until it cannot run, at most [fuel] times. *)
Fixpoint run_task (env : Env) (self : FileController) (fuel : nat) (t : Task) (w : World)
  : Task * World :=
  match fuel with
  | O => (t, w)
  | S fuel' =>
      match step_task env self t w with
      | Some (t', w') => run_task env self fuel' t' w'
      | None => (t, w)
      end
  end.

(** The start, then each of the seven tasks resumed once, in their order. *)
Definition schedule_first_round : list Choice :=
  ResumeMain :: map ResumeTask (seq 0 7).

(** The tasks resumed in turn, the last one first, until all are over. *)
Definition schedule_backwards : list Choice :=
  ResumeMain
  :: concat (replicate 5 (map ResumeTask (reverse (seq 0 7))))
  ++ [ResumeMain].

(* ===================================================================== *)
(** ** FileManager.get_ssl_context *)
(* ===================================================================== *)

(** [ssl.VerifyMode] *)
Inductive VerifyMode : Type := CERT_NONE | CERT_OPTIONAL | CERT_REQUIRED.

(** The two attributes of an [ssl.SSLContext] that the source sets. *)
Record SSLContext : Type := {
  check_hostname : bool;
  verify_mode : VerifyMode
}.

(** [ssl.create_default_context()] *)
Definition create_default_context : SSLContext :=
  {| check_hostname := true; verify_mode := CERT_REQUIRED |}.

(** [ctx.check_hostname = value]: enabling the check on a context that does
    not verify certificates makes it require them. *)
Definition set_check_hostname (value : bool) (ctx : SSLContext) : SSLContext :=
  match value, verify_mode ctx with
  | true, CERT_NONE => {| check_hostname := true; verify_mode := CERT_REQUIRED |}
  | _, _ => {| check_hostname := value; verify_mode := verify_mode ctx |}
  end.

(** [ctx.verify_mode = value]: a [ValueError] (its message on the left) when
    the verification is switched off while the host name is checked. *)
Definition set_verify_mode (value : VerifyMode) (ctx : SSLContext) : string + SSLContext :=
  match value, check_hostname ctx with
  | CERT_NONE, true =>
      inl "Cannot set verify_mode to CERT_NONE when check_hostname is enabled."
  | _, _ => inr {| check_hostname := check_hostname ctx; verify_mode := value |}
  end.

(** [FileManager.get_ssl_context] *)
Definition get_ssl_context (self : FileManager) : string + SSLContext :=
  let ssl_context := create_default_context in
  if negb (verify_ssl self)
  then
    let ssl_context := set_check_hostname false ssl_context in
    set_verify_mode CERT_NONE ssl_context
  else inr ssl_context.

(* ===================================================================== *)
(** ** Vocabulary of the further statements *)
(* ===================================================================== *)

(** The server never delivers a body for a URI: every GET of it raises, or
    is answered with an error status. *)
Definition never_delivers (env : Env) (uri : string) : Prop :=
  forall n,
    match http_get env uri n with
    | GetRaises _ => True
    | GetResponse r => 400 <= status r
    end.

(** The outcome that a record reports. *)
Definition record_outcome (r : LogRecord) : option Outcome :=
  match event r with
  | ItemEvent _ outcome => Some outcome
  | _ => None
  end.

(** The GETs that a task may still issue, and the seconds it may still sleep. *)
Definition attempts_left (t : Task) : nat :=
  match stage t with
  | Pending => 3
  | Downloading attempt_number => 4 - attempt_number
  | _ => 0
  end.

Definition seconds_left (t : Task) : Z :=
  match stage t with
  | Pending => 3
  | Downloading 1 => 3
  | Downloading 2 => 2
  | _ => 0
  end.

Definition attempt_in_range (t : Task) : Prop :=
  match stage t with
  | Downloading attempt_number => (1 <= attempt_number <= 3)%nat
  | _ => True
  end.

Definition total_sleep (w : World) : Z := foldr Z.add 0 (sleeps w).

Definition sum_seconds_left (ts : list Task) : Z := foldr Z.add 0 (map seconds_left ts).

(** What a run has spent and may still spend, against 3 GETs and 3 seconds
    of backoff per item. *)
Record run_counts (self : FileController) (r : Run) : Prop := {
  cnt_range : Forall attempt_in_range (tasks r);
  cnt_tasks : (length (tasks r) <= length (file_names self))%nat;
  cnt_requests :
    (length (requests (world r)) + sum_list_with attempts_left (tasks r)
     + 3 * (length (file_names self) - length (tasks r))
     <= 3 * length (file_names self))%nat;
  cnt_sleeps :
    total_sleep (world r) + sum_seconds_left (tasks r)
    + 3 * Z.of_nat (length (file_names self) - length (tasks r))
    <= 3 * Z.of_nat (length (file_names self))
}.

(* ===================================================================== *)
(** ** main.py *)
(* ===================================================================== *)


(* ===================================================================== *)
(** ** A name that is listed twice *)
(* ===================================================================== *)

(** The start; both tasks enter the with block; both download; the first
    extracts, then the second; the end. *)
Definition schedule_twice : list Choice :=
  [ResumeMain; ResumeTask 0; ResumeTask 1; ResumeTask 0; ResumeTask 1;
   ResumeTask 0; ResumeTask 1; ResumeMain].

(** A controller whose list holds one name twice. *)
Definition controller_twice : FileController :=
  {| file_names := ["Divvy_Trips_2018_Q4.zip"; "Divvy_Trips_2018_Q4.zip"];
     file_manager := FileManager_init "downloads" |}.

(* ===================================================================== *)
(** * Properties *)
(* ===================================================================== *)

(** ** Strings, chunks and single operations *)

Lemma append_empty_r (s : string) : s +:+ "" = s.
Proof.
  induction s as [|c s IH]; [reflexivity|].
  change (String c (s +:+ "") = String c s). now rewrite IH.
Qed.

Lemma uri_of_eq (file_name : string) :
  uri_of file_name = "https://divvy-tripdata.s3.amazonaws.com/" +:+ file_name.
Proof. unfold uri_of, BASE_URI. cbn. now rewrite append_empty_r. Qed.

Lemma set_files_set_files f g w : set_files f (set_files g w) = set_files (fun fs => f (g fs)) w.
Proof. reflexivity. Qed.

Lemma split_every_concat n fuel (data : bytes) :
  (0 < n)%nat -> (length data <= fuel)%nat -> concat (split_every fuel n data) = data.
Proof.
  intros Hn. revert data. induction fuel as [|fuel IH]; intros data Hlen.
  - destruct data; [reflexivity | simpl in Hlen; lia].
  - destruct data as [|b data]; [reflexivity|].
    cbn [split_every concat]. rewrite IH.
    + apply take_drop.
    + rewrite length_drop. simpl in *. lia.
Qed.

Lemma split_every_bound n fuel (data : bytes) :
  Forall (fun chunk => (length chunk <= n)%nat) (split_every fuel n data).
Proof.
  revert data. induction fuel as [|fuel IH]; intros data; [constructor|].
  destruct data as [|b data]; [constructor|].
  cbn [split_every]. constructor; [|apply IH].
  rewrite length_take. lia.
Qed.

(** All the pieces of an arrival but the last have exactly [n] bytes. *)
Lemma split_every_lengths n fuel (data : bytes) :
  (0 < n)%nat -> (length data <= fuel)%nat ->
  map length (split_every fuel n data)
  = replicate (length data / n) n
    ++ (if (length data mod n =? 0)%nat then [] else [(length data mod n)%nat]).
Proof.
  intros Hn. revert data. induction fuel as [|fuel IH]; intros data Hlen.
  - destruct data; [|cbn in Hlen; lia].
    cbn. rewrite Nat.Div0.div_0_l, Nat.Div0.mod_0_l. reflexivity.
  - destruct data as [|b data].
    { cbn. rewrite Nat.Div0.div_0_l, Nat.Div0.mod_0_l. reflexivity. }
    cbn [split_every map]. rewrite IH by (rewrite length_drop; cbn in *; lia).
    rewrite length_take, length_drop.
    remember (length (b :: data)) as L eqn:HeqL.
    assert (HL : (0 < L)%nat) by (subst L; cbn; lia).
    clear HeqL.
    destruct (Nat.lt_ge_cases L n) as [Hlt|Hge].
    + rewrite (Nat.div_small L n), (Nat.mod_small L n) by lia.
      replace (L - n)%nat with 0%nat by lia.
      rewrite Nat.Div0.div_0_l, Nat.Div0.mod_0_l. cbn.
      destruct (Nat.eqb_spec L 0); [lia|]. f_equal. lia.
    + replace (n `min` L)%nat with n by lia.
      assert (Hdiv : (L / n = S ((L - n) / n))%nat).
      { replace L with (L - n + 1 * n)%nat at 1 by lia.
        rewrite Nat.div_add by lia. lia. }
      assert (Hmod : (L mod n = (L - n) mod n)%nat).
      { replace L with (L - n + 1 * n)%nat at 1 by lia.
        now rewrite Nat.Div0.mod_add. }
      rewrite Hdiv, Hmod. reflexivity.
Qed.

Lemma iter_chunked_concat n r :
  (0 < n)%nat -> concat (iter_chunked n r) = concat (content r).
Proof.
  intros Hn. unfold iter_chunked. induction (content r) as [|a l IH]; [reflexivity|].
  cbn [flat_map concat]. rewrite concat_app, IH, split_every_concat; auto.
Qed.

Lemma iter_chunked_bound n r :
  Forall (fun chunk => (length chunk <= n)%nat) (iter_chunked n r).
Proof.
  unfold iter_chunked. induction (content r) as [|a l IH]; [constructor|].
  cbn [flat_map]. apply Forall_app. split; [apply split_every_bound | exact IH].
Qed.

Lemma split_every_nonempty n fuel (data : bytes) :
  (0 < n)%nat -> Forall (fun chunk => nonempty chunk = true) (split_every fuel n data).
Proof.
  intros Hn. revert data. induction fuel as [|fuel IH]; intros data; [constructor|].
  destruct data as [|b data]; [constructor|].
  cbn [split_every]. constructor; [|apply IH].
  destruct n; [lia | reflexivity].
Qed.

Lemma filter_all {A} (f : A -> bool) (l : list A) :
  Forall (fun x => f x = true) l -> List.filter f l = l.
Proof.
  induction 1 as [|x l Hx _ IH]; [reflexivity|]. cbn. now rewrite Hx, IH.
Qed.

Lemma iter_chunked_nonempty n r :
  (0 < n)%nat -> List.filter nonempty (iter_chunked n r) = iter_chunked n r.
Proof.
  intros Hn. apply filter_all. unfold iter_chunked.
  induction (content r) as [|a l IH]; [constructor|].
  cbn [flat_map]. apply Forall_app. split; [now apply split_every_nonempty | exact IH].
Qed.

Lemma iter_chunked_lengths n r :
  (0 < n)%nat -> map length (iter_chunked n r) = piece_lengths n (content r).
Proof.
  intros Hn. unfold iter_chunked, piece_lengths.
  induction (content r) as [|a l IH]; [reflexivity|].
  cbn [flat_map]. rewrite map_app, IH, split_every_lengths by lia. reflexivity.
Qed.

Lemma add_writes_nil w : add_writes [] w = w.
Proof. destruct w. unfold add_writes. cbn. now rewrite app_nil_r. Qed.

Lemma add_writes_app l1 l2 w : add_writes l2 (add_writes l1 w) = add_writes (l1 ++ l2) w.
Proof. unfold add_writes. cbn. now rewrite app_assoc. Qed.

Lemma write_chunks_spec path chunks w old :
  files w !! path = Some old ->
  write_chunks path chunks w =
  (Return tt,
   set_files (fun fs => <[path := old ++ concat chunks]> fs)
     (add_writes (map (pair path) (List.filter nonempty chunks)) w)).
Proof.
  revert w old. induction chunks as [|chunk rest IH]; intros w old Hold.
  - cbn. rewrite app_nil_r, add_writes_nil. unfold ret. f_equal.
    destruct w; unfold set_files; cbn in *.
    f_equal. symmetry. now apply insert_id.
  - cbn [write_chunks concat]. unfold bind.
    destruct chunk as [|b chunk].
    + unfold ret. rewrite (IH w old Hold). reflexivity.
    + unfold file_write. erewrite IH.
      2:{ cbn. apply lookup_insert_eq. }
      rewrite Hold. cbn [default List.filter nonempty map]. f_equal.
      unfold set_files, add_writes, add_write. cbn. f_equal.
      * rewrite insert_insert_eq. now rewrite <- app_assoc.
      * now rewrite <- app_assoc.
Qed.

Lemma download_attempt_unfold env self file_name w :
  let uri := uri_of file_name in
  let zip_path := os_path_join (download_dir self) file_name in
  download_attempt env self file_name w =
  match http_get env uri (count_occ String.string_dec (requests w) uri) with
  | GetRaises e => (Raise (reclassify file_name e), add_request uri w)
  | GetResponse r =>
      if status r =? 404
      then (Raise (FileNotFoundError ("File " +:+ file_name +:+ " not found on the server.")),
            add_request uri w)
      else if 400 <=? status r
      then (Raise (reclassify file_name (ClientResponseError (status r) "")),
            add_request uri w)
      else (match content_end r with
            | Eof => Return zip_path
            | Broken e => Raise (reclassify file_name e)
            end,
            set_files (fun fs => <[zip_path := concat (content r)]> fs)
              (add_writes (map (pair zip_path) (iter_chunked 1024 r)) (add_request uri w)))
  end.
Proof.
  intros uri zip_path. unfold download_attempt.
  subst uri zip_path. unfold uri_of.
  set (uri := str_format BASE_URI file_name).
  set (zip_path := os_path_join (download_dir self) file_name).
  unfold bind at 1. unfold try_except, bind at 1, session_get.
  destruct (http_get env uri _) as [e|r].
  - unfold reclassify, caught_by_download.
    destruct (is_ClientResponseError e || is_ClientConnectorError e || is_TimeoutError e); reflexivity.
  - unfold bind at 1. destruct (status r =? 404) eqn:H404.
    + reflexivity.
    + unfold ret at 1. unfold bind at 1, raise_for_status.
      destruct (400 <=? status r) eqn:H400.
      * reflexivity.
      * unfold ret at 1. unfold bind at 1, open_wb. unfold bind at 1.
        erewrite write_chunks_spec by (cbn; apply lookup_insert_eq).
        rewrite iter_chunked_concat, iter_chunked_nonempty by lia. cbn [app].
        set (new := map (pair zip_path) (iter_chunked 1024 r)).
        assert (Hw : set_files (fun fs => <[zip_path:=concat (content r)]> fs)
                       (add_writes new
                          (set_files (fun fs => <[zip_path:=[]]> fs) (add_request uri w)))
                     = set_files (fun fs => <[zip_path:=concat (content r)]> fs)
                         (add_writes new (add_request uri w))).
        { unfold set_files, add_writes. cbn. f_equal. apply insert_insert_eq. }
        rewrite Hw. unfold stream_end.
        destruct (content_end r) as [|e].
        -- reflexivity.
        -- unfold raise, reclassify, caught_by_download.
           destruct (is_ClientResponseError e || is_ClientConnectorError e || is_TimeoutError e); reflexivity.
Qed.

Lemma download_file_unfold env self file_name w :
  download_file env self file_name w =
  match download_attempt env self file_name w with
  | (Raise _, w1) =>
      match download_attempt env self file_name (add_sleep 1 w1) with
      | (Raise _, w2) =>
          match download_attempt env self file_name (add_sleep 2 w2) with
          | (Raise e3, w3) => (Raise (RetryError e3), w3)
          | r => r
          end
      | r => r
      end
  | r => r
  end.
Proof.
  reflexivity.
Qed.


Lemma download_attempt_frame env self file_name w :
  attempt_frame self file_name w (snd (download_attempt env self file_name w)) /\
  fst (download_attempt env self file_name w) <> Blocked.
Proof.
  rewrite download_attempt_unfold.
  destruct (http_get env _ _) as [e|r].
  - split; [constructor; reflexivity | discriminate].
  - destruct (status r =? 404); [split; [constructor; reflexivity | discriminate]|].
    destruct (400 <=? status r); [split; [constructor; reflexivity | discriminate]|].
    split.
    + constructor; try reflexivity.
      intros path Hne. cbn. now rewrite lookup_insert_ne.
    + cbn. destruct (content_end r); discriminate.
Qed.

(** What one attempt writes goes to the local file of the item. *)
Lemma download_attempt_writes env self file_name w :
  exists new,
    writes (snd (download_attempt env self file_name w)) = writes w ++ new /\
    Forall (fun c => c.1 = os_path_join (download_dir self) file_name) new.
Proof.
  rewrite download_attempt_unfold.
  destruct (http_get env _ _) as [e|r].
  - exists []. cbn. rewrite app_nil_r. auto.
  - destruct (status r =? 404); [exists []; cbn; rewrite app_nil_r; auto|].
    destruct (400 <=? status r); [exists []; cbn; rewrite app_nil_r; auto|].
    eexists. cbn. split; [reflexivity|].
    apply Forall_forall. intros c Hc. apply list_elem_of_fmap in Hc as (chunk & -> & _).
    reflexivity.
Qed.

Lemma download_file_run_writes env self file_name w :
  exists (k : nat) (w0 : World),
    (1 <= k <= 3)%nat /\
    requests w0 = requests w ++ replicate (k - 1) (uri_of file_name) /\
    sleeps w0 = sleeps w ++ take (k - 1) [1; 2] /\
    records w0 = records w /\
    semaphore w0 = semaphore w /\
    (forall path, path <> os_path_join (download_dir self) file_name ->
                  files w0 !! path = files w !! path) /\
    match download_attempt env self file_name w0 with
    | (Return p, w') => download_file env self file_name w = (Return p, w')
    | (Raise last, w') =>
        k = 3%nat /\ download_file env self file_name w = (Raise (RetryError last), w')
    | (Blocked, _) => False
    end /\
    exists earlier,
      writes w0 = writes w ++ earlier /\
      (k = 1%nat -> earlier = []) /\
      Forall (fun c => c.1 = os_path_join (download_dir self) file_name) earlier.
Proof.
  rewrite download_file_unfold.
  destruct (download_attempt_frame env self file_name w) as [[R1 S1 L1 M1 Fi1] B1].
  destruct (download_attempt_writes env self file_name w) as (new1 & W1 & P1).
  destruct (download_attempt env self file_name w) as [[p|e1|] w1] eqn:A1;
    cbn [fst snd] in *; [| |congruence].
  { exists 1%nat, w. rewrite A1. cbn. rewrite !app_nil_r.
    repeat split; auto; try lia. exists []. rewrite app_nil_r. auto. }
  destruct (download_attempt_frame env self file_name (add_sleep 1 w1))
    as [[R2 S2 L2 M2 Fi2] B2].
  destruct (download_attempt_writes env self file_name (add_sleep 1 w1)) as (new2 & W2 & P2).
  destruct (download_attempt env self file_name (add_sleep 1 w1)) as [[p|e2|] w2] eqn:A2;
    cbn [fst snd] in *; [| |congruence].
  { exists 2%nat, (add_sleep 1 w1). rewrite A2. cbn.
    split; [lia|]. split; [exact R1|]. split; [now rewrite S1|].
    split; [exact L1|]. split; [exact M1|]. split; [exact Fi1|]. split; [reflexivity|].
    exists new1. split; [exact W1|]. split; [lia | exact P1]. }
  destruct (download_attempt_frame env self file_name (add_sleep 2 w2)) as [_ B3].
  exists 3%nat, (add_sleep 2 w2).
  assert (Hpre : requests (add_sleep 2 w2)
                 = requests w ++ replicate (3 - 1) (uri_of file_name) /\
                 sleeps (add_sleep 2 w2) = sleeps w ++ take (3 - 1) [1; 2] /\
                 records (add_sleep 2 w2) = records w /\
                 semaphore (add_sleep 2 w2) = semaphore w /\
                 (forall path, path <> os_path_join (download_dir self) file_name ->
                               files (add_sleep 2 w2) !! path = files w !! path)).
  { cbn in *. split; [now rewrite R2, R1, <- app_assoc|].
    split; [now rewrite S2, S1, <- app_assoc|].
    split; [congruence|]. split; [congruence|].
    intros path Hne. now rewrite Fi2, Fi1. }
  destruct Hpre as (H1 & H2 & H3 & H4 & H5).
  split; [lia|]. do 5 (split; [assumption|]).
  split.
  - destruct (download_attempt env self file_name (add_sleep 2 w2)) as [[p|e3|] w3];
      cbn [fst] in B3; [reflexivity | split; reflexivity | congruence].
  - exists (new1 ++ new2). cbn in *. split; [now rewrite W2, W1, <- app_assoc|].
    split; [lia|]. apply Forall_app. split; assumption.
Qed.

Lemma download_file_run env self file_name w :
  exists (k : nat) (w0 : World),
    (1 <= k <= 3)%nat /\
    requests w0 = requests w ++ replicate (k - 1) (uri_of file_name) /\
    sleeps w0 = sleeps w ++ take (k - 1) [1; 2] /\
    records w0 = records w /\
    semaphore w0 = semaphore w /\
    (forall path, path <> os_path_join (download_dir self) file_name ->
                  files w0 !! path = files w !! path) /\
    match download_attempt env self file_name w0 with
    | (Return p, w') => download_file env self file_name w = (Return p, w')
    | (Raise last, w') =>
        k = 3%nat /\ download_file env self file_name w = (Raise (RetryError last), w')
    | (Blocked, _) => False
    end.
Proof.
  destruct (download_file_run_writes env self file_name w)
    as (k & w0 & H1 & H2 & H3 & H4 & H5 & H6 & H7 & _).
  exists k, w0. auto 10.
Qed.

Lemma process_file_unfold env self file_name w :
  process_file env self file_name w =
  match semaphore w with
  | O => (Blocked, w)
  | S n =>
      match download_file env (file_manager self) file_name (set_semaphore n w) with
      | (Return zip_path, w1) =>
          match extract_zip env (file_manager self) zip_path (semaphore_release w1) with
          | (Return _, w2) =>
              log_info (ItemEvent file_name Success) ("Processed " +:+ file_name) w2
          | (Raise e, w2) => handle file_name e w2
          | (Blocked, w2) => (Blocked, w2)
          end
      | (Raise e, w1) => handle file_name e (semaphore_release w1)
      | (Blocked, w1) => (Blocked, w1)
      end
  end.
Proof.
  unfold process_file, try_except, bind at 1, async_with_semaphore, bind at 1,
    semaphore_acquire, try_finally.
  destruct (semaphore w) as [|n]; [reflexivity|].
  destruct (download_file _ _ _ _) as [[p|e|] w1].
  - unfold bind at 1, extract_zip_in_thread.
    destruct (extract_zip _ _ _ _) as [[[]|e|] w2]; try reflexivity.
    unfold handle. destruct (except_clauses file_name e) eqn:H; [reflexivity|].
    reflexivity.
  - unfold handle. destruct (except_clauses file_name e); reflexivity.
  - reflexivity.
Qed.


Lemma raised_not_caught (e : LocalError) :
  is_ConnectionError (raised e) = false /\ is_RetryError (raised e) = false.
Proof. destruct e; split; reflexivity. Qed.

Lemma extract_zip_unfold env self file_path w :
  extract_zip env self file_path w =
  match files w !! file_path with
  | None =>
      (Raise (FileNotFoundError ("[Errno 2] No such file or directory: " +:+ file_path)), w)
  | Some data =>
      match zip_open env data with
      | Some e => (Raise (raised e), w)
      | None =>
          match zip_extractall env data (download_dir self) (files w) with
          | (fs, Some e) => (Raise (raised e), set_files (fun _ => fs) w)
          | (fs, None) => os_remove file_path (set_files (fun _ => fs) w)
          end
      end
  end.
Proof.
  unfold extract_zip, bind, ZipFile.
  destruct (files w !! file_path) as [data|]; [|reflexivity].
  destruct (zip_open env data) as [e|]; [reflexivity|].
  unfold extractall.
  destruct (zip_extractall env data (download_dir self) (files w)) as [fs [e|]]; reflexivity.
Qed.

(** An extraction returns or raises; it changes the files only, and what
    it raises is neither a [ConnectionError] nor a [RetryError]. *)
Lemma extract_zip_spec env self file_path w :
  same_but_files w (snd (extract_zip env self file_path w)) /\
  match fst (extract_zip env self file_path w) with
  | Return _ => True
  | Raise e => is_ConnectionError e = false /\ is_RetryError e = false
  | Blocked => False
  end.
Proof.
  rewrite extract_zip_unfold.
  destruct (files w !! file_path) as [data|] eqn:Hfile; [|cbn; repeat split; auto].
  destruct (zip_open env data) as [e|].
  { cbn. split; [repeat split; auto | apply raised_not_caught]. }
  destruct (zip_extractall env data (download_dir self) (files w)) as [fs [e|]].
  { cbn. split; [repeat split; auto | apply raised_not_caught]. }
  unfold os_remove. cbn [files set_files].
  destruct (fs !! file_path); cbn; repeat split; auto.
Qed.

(** ** The except clauses *)

Lemma handle_reports file_name e w :
  exists rec,
    handle file_name e w = (Return tt, add_record rec w) /\
    level rec = ERROR /\
    record_item rec = Some file_name /\
    reports_connection_failure rec = is_ConnectionError e /\
    event rec <> ItemEvent file_name Success.
Proof.
  unfold handle.
  destruct e; cbn [except_clauses];
    try (eexists; split; [reflexivity|]; cbn; repeat split; congruence).
  destruct (is_FileNotFoundError e);
    (eexists; split; [reflexivity|]; cbn; repeat split; congruence).
Qed.

Lemma handle_retry_error file_name last w :
  handle file_name (RetryError last) w =
  (Return tt,
   add_record
     {| level := ERROR;
        message := if is_FileNotFoundError last
                   then file_name +:+ " not found after retries."
                   else "Unexpected retry error with " +:+ file_name +:+ ": "
                        +:+ str (RetryError last);
        event := ItemEvent file_name (RetriesExhausted last) |} w).
Proof. unfold handle. cbn [except_clauses]. destruct (is_FileNotFoundError last); reflexivity. Qed.


(** ** The retried download *)

Lemma count_occ_replicate (l : list string) (x : string) (k : nat) :
  count_occ String.string_dec (l ++ replicate k x) x
  = (count_occ String.string_dec l x + k)%nat.
Proof.
  rewrite count_occ_app. f_equal.
  induction k as [|k IH]; [reflexivity|].
  cbn [replicate]. rewrite count_occ_cons_eq by reflexivity. now rewrite IH.
Qed.

(** Every exception that leaves [download_file] is a [RetryError], and the
    decorated function always comes back. *)
Lemma download_file_raises_retry_error env self file_name w :
  match fst (download_file env self file_name w) with
  | Return p => p = os_path_join (download_dir self) file_name
  | Raise e => is_RetryError e = true
  | Blocked => False
  end.
Proof.
  destruct (download_file_run env self file_name w) as (k & w0 & _ & _ & _ & _ & _ & _ & Hlast).
  pose proof (download_attempt_unfold env self file_name w0) as Hu. cbv zeta in Hu.
  destruct (download_attempt env self file_name w0) as [[p|last|] w'].
  - rewrite Hlast. cbn.
    destruct (http_get env _ _) as [e|r]; [congruence|].
    destruct (status r =? 404); [congruence|].
    destruct (400 <=? status r); [congruence|].
    destruct (content_end r); congruence.
  - destruct Hlast as [_ ->]. reflexivity.
  - contradiction.
Qed.


(** A download that returns has written the archive. *)
Lemma download_file_writes env self file_name w p w' :
  download_file env self file_name w = (Return p, w') ->
  exists (k : nat) (r : ClientResponse),
    (k < 3)%nat /\
    http_get env (uri_of file_name)
      (count_occ String.string_dec (requests w) (uri_of file_name) + k) = GetResponse r /\
    status r < 400 /\ content_end r = Eof /\
    p = os_path_join (download_dir self) file_name /\
    files w' !! p = Some (concat (content r)) /\
    requests w' = requests w ++ replicate (S k) (uri_of file_name) /\
    exists earlier,
      writes w' = writes w ++ earlier ++ map (pair p) (iter_chunked 1024 r) /\
      (k = 0%nat -> earlier = []) /\
      Forall (fun c => c.1 = p) earlier.
Proof.
  intros Hdl.
  destruct (download_file_run_writes env self file_name w)
    as (k & w0 & Hk & Hreq & _ & _ & _ & _ & Hlast & earlier & Hwr & Hfirst & Hearlier).
  pose proof (download_attempt_unfold env self file_name w0) as Hu. cbv zeta in Hu.
  rewrite Hreq, count_occ_replicate in Hu.
  destruct (download_attempt env self file_name w0) as [[p0|last|] w0'].
  - rewrite Hdl in Hlast. injection Hlast as -> ->.
    exists (k - 1)%nat.
    destruct (http_get env _ _) as [e|r]; [congruence|].
    exists r.
    destruct (status r =? 404) eqn:H404; [congruence|].
    destruct (400 <=? status r) eqn:H400; [congruence|].
    destruct (content_end r) eqn:Hend; [|congruence].
    injection Hu as -> ->.
    split; [lia|]. split; [reflexivity|]. split; [lia|]. split; [reflexivity|].
    split; [reflexivity|]. split; [cbn; apply lookup_insert_eq|].
    split.
    + cbn [requests set_files add_request add_writes]. rewrite Hreq, <- app_assoc. f_equal.
      symmetry. apply replicate_S_end.
    + exists earlier. cbn [writes set_files add_request add_writes].
      rewrite Hwr, <- app_assoc. split; [reflexivity|]. split; [intros; apply Hfirst; lia|].
      exact Hearlier.
  - destruct Hlast as [_ Hlast]. congruence.
  - contradiction.
Qed.

(** ** The fetcher: classification, retries, and what is written *)

(** C6: an error status other than 404, a failure to establish the
    connection and a timeout all leave an attempt of the download as a
    [ConnectionError], and as nothing else; the decorator then makes
    another attempt. *)
Theorem connection_failures_are_classified env self file_name w :
  connection_failure_source
    (http_get env (uri_of file_name)
       (count_occ String.string_dec (requests w) (uri_of file_name))) ->
  fst (download_attempt env self file_name w)
  = Raise (ConnectionError
             ("Error downloading " +:+ file_name +:+ ": "
              +:+ match http_get env (uri_of file_name)
                          (count_occ String.string_dec (requests w) (uri_of file_name)) with
                  | GetRaises e => str e
                  | GetResponse r =>
                      if 400 <=? status r then str (ClientResponseError (status r) "")
                      else str TimeoutError
                  end)) /\
  (length (requests w) + 2
   <= length (requests (snd (download_file env self file_name w))))%nat.
Proof.
  intros Hsrc.
  assert (Hfst : fst (download_attempt env self file_name w)
    = Raise (ConnectionError
             ("Error downloading " +:+ file_name +:+ ": "
              +:+ match http_get env (uri_of file_name)
                          (count_occ String.string_dec (requests w) (uri_of file_name)) with
                  | GetRaises e => str e
                  | GetResponse r =>
                      if 400 <=? status r then str (ClientResponseError (status r) "")
                      else str TimeoutError
                  end))).
  { rewrite download_attempt_unfold.
    inversion Hsrc as [r H400 H404 Hr | msg Hr | Hr | r Hlt Hend Hr]; try reflexivity.
    - destruct (Z.eqb_spec (status r) 404) as [|_]; [contradiction|].
      destruct (Z.leb_spec 400 (status r)); [reflexivity | lia].
    - destruct (Z.eqb_spec (status r) 404) as [|_]; [lia|].
      destruct (Z.leb_spec 400 (status r)); [lia|].
      rewrite Hend. reflexivity. }
  split; [exact Hfst|].
  rewrite download_file_unfold.
  destruct (download_attempt_frame env self file_name w) as [[R1 _ _ _ _] _].
  destruct (download_attempt env self file_name w) as [[p|e1|] w1];
    cbn [fst snd] in *; try discriminate.
  destruct (download_attempt_frame env self file_name (add_sleep 1 w1)) as [[R2 _ _ _ _] B2].
  destruct (download_attempt env self file_name (add_sleep 1 w1)) as [[p|e2|] w2];
    cbn [fst snd] in *; [| |congruence].
  - rewrite R2. cbn. rewrite R1, !length_app. cbn. lia.
  - destruct (download_attempt_frame env self file_name (add_sleep 2 w2)) as [[R3 _ _ _ _] _].
    destruct (download_attempt env self file_name (add_sleep 2 w2)) as [[p|e3|] w3];
      cbn [fst snd] in *; rewrite R3; cbn; rewrite R2; cbn; rewrite R1, !length_app; cbn; lia.
Qed.

Lemma connection_failures_are_classified_witness :
  fst (download_attempt server_503 (FileManager_init "downloads") "Divvy_Trips_2018_Q4.zip"
         (initial_world ∅))
  = Raise (ConnectionError "Error downloading Divvy_Trips_2018_Q4.zip: ") /\
  (0 + 2 <= length (requests (snd (download_file server_503 (FileManager_init "downloads")
                                     "Divvy_Trips_2018_Q4.zip" (initial_world ∅)))))%nat.
Proof.
  apply (connection_failures_are_classified server_503 (FileManager_init "downloads")
           "Divvy_Trips_2018_Q4.zip" (initial_world ∅)).
  apply source_error_status; cbn; lia.
Defined.

Lemma download_attempt_keeps_file env self file_name w :
  let zip_path := os_path_join (download_dir self) file_name in
  is_Some (files w !! zip_path) ->
  is_Some (files (snd (download_attempt env self file_name w)) !! zip_path).
Proof.
  intros zip_path Hw. rewrite download_attempt_unfold.
  destruct (http_get env _ _) as [e0|r0]; [exact Hw|].
  destruct (status r0 =? 404); [exact Hw|].
  destruct (400 <=? status r0); [exact Hw|].
  cbn. fold zip_path. rewrite lookup_insert_eq. eauto.
Qed.

(** C10: an attempt that fails while the body is read leaves on disk what
    it wrote; every attempt that opens the local file starts from an empty
    file, whatever was there; so the file of a download that returns holds
    exactly the body of the response of its last attempt. *)
Theorem partial_file_is_truncated_by_next_attempt env self file_name w r :
  http_get env (uri_of file_name)
    (count_occ String.string_dec (requests w) (uri_of file_name)) = GetResponse r ->
  status r < 400 ->
  let zip_path := os_path_join (download_dir self) file_name in
  files (snd (download_attempt env self file_name w)) !! zip_path
  = Some (concat (content r)) /\
  fst (download_attempt env self file_name w)
  = match content_end r with
    | Eof => Return zip_path
    | Broken e => Raise (reclassify file_name e)
    end /\
  match download_file env self file_name w with
  | (Return p, w') =>
      exists (k : nat) (r' : ClientResponse),
        http_get env (uri_of file_name)
          (count_occ String.string_dec (requests w) (uri_of file_name) + k)
        = GetResponse r' /\
        content_end r' = Eof /\
        (content_end r <> Eof -> (1 <= k)%nat) /\
        files w' !! zip_path = Some (concat (content r'))
  | (Raise _, w') => is_Some (files w' !! zip_path)
  | (Blocked, _) => False
  end.
Proof.
  intros Hget Hstatus zip_path.
  pose proof (download_attempt_unfold env self file_name w) as Hu. cbv zeta in Hu.
  rewrite Hget in Hu.
  destruct (Z.eqb_spec (status r) 404) as [|_]; [lia|].
  destruct (Z.leb_spec 400 (status r)) as [|_]; [lia|].
  split; [rewrite Hu; cbn; apply lookup_insert_eq|].
  split; [rewrite Hu; reflexivity|].
  destruct (download_file env self file_name w) as [[p|e|] w'] eqn:Hdl.
  - destruct (download_file_writes env self file_name w p w' Hdl)
      as (k & r' & _ & Hget' & _ & Hend' & Hp & Hfile & _).
    exists k, r'. subst p. split; [exact Hget'|]. split; [exact Hend'|].
    split; [|exact Hfile].
    intros Hne. destruct k; [|lia].
    rewrite Nat.add_0_r, Hget in Hget'. congruence.
  - (* the file written by the first attempt is still there *)
    rewrite download_file_unfold, Hu in Hdl.
    pose proof (download_attempt_keeps_file env self file_name) as Hkeep.
    cbv zeta in Hkeep. fold zip_path in Hkeep.
    set (w1 := set_files _ (add_writes _ _)) in Hdl.
    assert (H1 : is_Some (files (add_sleep 1 w1) !! zip_path)).
    { subst w1. cbn. fold zip_path. rewrite lookup_insert_eq. eauto. }
    destruct (content_end r); [congruence|].
    pose proof (Hkeep _ H1) as H2.
    destruct (download_attempt env self file_name (add_sleep 1 w1)) as [[p2|e2|] w2];
      [congruence| |congruence].
    pose proof (Hkeep (add_sleep 2 w2) H2) as H3.
    destruct (download_attempt env self file_name (add_sleep 2 w2)) as [[p3|e3|] w3];
      [congruence| |congruence].
    injection Hdl as _ <-. exact H3.
  - pose proof (download_file_raises_retry_error env self file_name w) as H.
    now rewrite Hdl in H.
Qed.

Lemma partial_file_is_truncated_by_next_attempt_witness :
  let env := server_flaky in
  let self := FileManager_init "downloads" in
  let file_name := "Divvy_Trips_2018_Q4.zip" in
  let w := initial_world {[ "downloads/Divvy_Trips_2018_Q4.zip" := [Byte.xff; Byte.xff; Byte.xff] ]} in
  let r := {| status := 200; content := [take 2 sample_body];
              content_end := Broken TimeoutError |} in
  let zip_path := os_path_join (download_dir self) file_name in
  files (snd (download_attempt env self file_name w)) !! zip_path
  = Some (concat (content r)) /\
  fst (download_attempt env self file_name w)
  = match content_end r with
    | Eof => Return zip_path
    | Broken e => Raise (reclassify file_name e)
    end /\
  match download_file env self file_name w with
  | (Return p, w') =>
      exists (k : nat) (r' : ClientResponse),
        http_get env (uri_of file_name)
          (count_occ String.string_dec (requests w) (uri_of file_name) + k)
        = GetResponse r' /\
        content_end r' = Eof /\
        (content_end r <> Eof -> (1 <= k)%nat) /\
        files w' !! zip_path = Some (concat (content r'))
  | (Raise _, w') => is_Some (files w' !! zip_path)
  | (Blocked, _) => False
  end.
Proof.
  intros env self file_name w r.
  apply (partial_file_is_truncated_by_next_attempt env self file_name w r).
  - reflexivity.
  - reflexivity.
Defined.

(** ** Backoff *)

Lemma wait_exponential_first : wait_exponential 1 1 10 1 = 1.
Proof. reflexivity. Qed.

Lemma wait_exponential_doubles (a : nat) :
  (1 <= a)%nat ->
  wait_exponential 1 1 10 (S a) = Z.min 10 (2 * wait_exponential 1 1 10 a).
Proof.
  intros Ha. unfold wait_exponential.
  replace (Z.of_nat (S a) - 1) with (Z.succ (Z.of_nat a - 1)) by lia.
  rewrite Z.pow_succ_r by lia.
  assert (Hpos : 0 < 2 ^ (Z.of_nat a - 1)) by (apply Z.pow_pos_nonneg; lia).
  lia.
Qed.

Lemma wait_exponential_bounds (a : nat) : 1 <= wait_exponential 1 1 10 a <= 10.
Proof. unfold wait_exponential. lia. Qed.

Lemma waits_of_attempts (k : nat) :
  (1 <= k <= 3)%nat ->
  take (k - 1) [1; 2] = map (wait_exponential 1 1 10) (seq 1 (k - 1)).
Proof.
  intros Hk. assert (Hc : k = 1%nat \/ k = 2%nat \/ k = 3%nat) by lia.
  destruct Hc as [-> | [-> | ->]]; reflexivity.
Qed.

(** C5: the download is attempted at most 3 times; the waits between the
    attempts start at 1 second, double, and never exceed 10 seconds; when
    the last attempt fails too, the download raises a [RetryError] that
    carries the exception of that attempt, and [process_file] reports it
    with a message that tells a wrapped [FileNotFoundError] from any other
    cause. *)
Theorem retries_bounded_and_exhaustion_wrapped env self file_name w n :
  semaphore w = S n ->
  wait_exponential 1 1 10 1 = 1 /\
  (forall a, (1 <= a)%nat ->
             wait_exponential 1 1 10 (S a) = Z.min 10 (2 * wait_exponential 1 1 10 a)) /\
  (forall a, 1 <= wait_exponential 1 1 10 a <= 10) /\
  exists (k : nat) (w0 : World),
    (1 <= k <= 3)%nat /\
    requests w0 = requests w ++ replicate (k - 1) (uri_of file_name) /\
    sleeps w0 = sleeps w ++ map (wait_exponential 1 1 10) (seq 1 (k - 1)) /\
    match download_attempt env (file_manager self) file_name w0 with
    | (Return p, w') =>
        download_file env (file_manager self) file_name (set_semaphore n w) = (Return p, w')
    | (Raise last, w') =>
        k = 3%nat /\
        download_file env (file_manager self) file_name (set_semaphore n w)
        = (Raise (RetryError last), w') /\
        process_file env self file_name w
        = (Return tt,
           add_record
             {| level := ERROR;
                message := if is_FileNotFoundError last
                           then file_name +:+ " not found after retries."
                           else "Unexpected retry error with " +:+ file_name +:+ ": "
                                +:+ str (RetryError last);
                event := ItemEvent file_name (RetriesExhausted last) |}
             (semaphore_release w'))
    | (Blocked, _) => False
    end.
Proof.
  intros Hsem.
  split; [apply wait_exponential_first|].
  split; [apply wait_exponential_doubles|].
  split; [apply wait_exponential_bounds|].
  destruct (download_file_run env (file_manager self) file_name (set_semaphore n w))
    as (k & w0 & Hk & Hreq & Hsl & _ & _ & _ & Hlast).
  exists k, w0. split; [exact Hk|]. split; [exact Hreq|].
  split; [rewrite Hsl, waits_of_attempts by exact Hk; reflexivity|].
  destruct (download_attempt env (file_manager self) file_name w0) as [[p|last|] w'];
    [exact Hlast | | exact Hlast].
  destruct Hlast as [-> Hdl]. split; [reflexivity|]. split; [exact Hdl|].
  rewrite process_file_unfold, Hsem, Hdl. apply handle_retry_error.
Qed.

Lemma retries_bounded_and_exhaustion_wrapped_witness :
  exists (k : nat) (w0 : World),
    (1 <= k <= 3)%nat /\
    requests w0 = requests (initial_world ∅)
                  ++ replicate (k - 1) (uri_of "Divvy_Trips_2019_Q1.zip") /\
    sleeps w0 = sleeps (initial_world ∅) ++ map (wait_exponential 1 1 10) (seq 1 (k - 1)) /\
    match download_attempt server_503 (file_manager FileController_init)
            "Divvy_Trips_2019_Q1.zip" w0 with
    | (Return p, w') =>
        download_file server_503 (file_manager FileController_init)
          "Divvy_Trips_2019_Q1.zip" (set_semaphore 4 (initial_world ∅)) = (Return p, w')
    | (Raise last, w') =>
        k = 3%nat /\
        download_file server_503 (file_manager FileController_init)
          "Divvy_Trips_2019_Q1.zip" (set_semaphore 4 (initial_world ∅))
        = (Raise (RetryError last), w') /\
        process_file server_503 FileController_init "Divvy_Trips_2019_Q1.zip"
          (initial_world ∅)
        = (Return tt,
           add_record
             {| level := ERROR;
                message := if is_FileNotFoundError last
                           then "Divvy_Trips_2019_Q1.zip" +:+ " not found after retries."
                           else "Unexpected retry error with " +:+ "Divvy_Trips_2019_Q1.zip"
                                +:+ ": " +:+ str (RetryError last);
                event := ItemEvent "Divvy_Trips_2019_Q1.zip" (RetriesExhausted last) |}
             (semaphore_release w'))
    | (Blocked, _) => False
    end.
Proof.
  apply (retries_bounded_and_exhaustion_wrapped server_503 FileController_init
           "Divvy_Trips_2019_Q1.zip" (initial_world ∅) 4).
  reflexivity.
Defined.

(** ** A missing resource *)

(** C1 (as in the source): a 404 is retried like every other failure.  When
    each of the three attempts receives a 404, the download waits 1 and 2
    seconds between them and raises a [RetryError] that wraps the
    [FileNotFoundError]; [process_file] reports it once, as exhausted
    retries, with the message "... not found after retries.". *)
Theorem not_found_is_retried_then_reported env self file_name w n :
  semaphore w = S n ->
  (forall k, (k < 3)%nat ->
     exists r,
       http_get env (uri_of file_name)
         (count_occ String.string_dec (requests w) (uri_of file_name) + k) = GetResponse r /\
       status r = 404) ->
  let not_found :=
    FileNotFoundError ("File " +:+ file_name +:+ " not found on the server.") in
  let uri := uri_of file_name in
  let w3 := add_request uri (add_sleep 2 (add_request uri (add_sleep 1
              (add_request uri (set_semaphore n w))))) in
  download_file env (file_manager self) file_name (set_semaphore n w)
  = (Raise (RetryError not_found), w3) /\
  process_file env self file_name w
  = (Return tt,
     add_record
       {| level := ERROR;
          message := file_name +:+ " not found after retries.";
          event := ItemEvent file_name (RetriesExhausted not_found) |}
       (semaphore_release w3)).
Proof.
  intros Hsem H404 not_found uri w3.
  assert (Hattempt : forall w0 k, (k < 3)%nat ->
            requests w0 = requests w ++ replicate k uri ->
            download_attempt env (file_manager self) file_name w0
            = (Raise not_found, add_request uri w0)).
  { intros w0 k Hk Hreq.
    pose proof (download_attempt_unfold env (file_manager self) file_name w0) as Hu.
    cbv zeta in Hu. fold uri in Hu.
    rewrite Hreq, count_occ_replicate in Hu.
    destruct (H404 k Hk) as (r & Hget & Hst). fold uri in Hget.
    rewrite Hget, Hst in Hu. exact Hu. }
  assert (Hdl : download_file env (file_manager self) file_name (set_semaphore n w)
                = (Raise (RetryError not_found), w3)).
  { rewrite download_file_unfold.
    rewrite (Hattempt (set_semaphore n w) 0%nat) by (try lia; cbn; now rewrite app_nil_r).
    rewrite (Hattempt _ 1%nat) by (try lia; reflexivity).
    rewrite (Hattempt _ 2%nat) by (try lia; cbn; now rewrite <- app_assoc).
    reflexivity. }
  split; [exact Hdl|].
  rewrite process_file_unfold, Hsem, Hdl. apply handle_retry_error.
Qed.

Lemma not_found_is_retried_then_reported_witness :
  let not_found :=
    FileNotFoundError ("File " +:+ "Divvy_Trips_2220_Q1.zip" +:+ " not found on the server.") in
  let uri := uri_of "Divvy_Trips_2220_Q1.zip" in
  let w3 := add_request uri (add_sleep 2 (add_request uri (add_sleep 1
              (add_request uri (set_semaphore 4 (initial_world ∅)))))) in
  download_file server_divvy (file_manager FileController_init) "Divvy_Trips_2220_Q1.zip"
    (set_semaphore 4 (initial_world ∅))
  = (Raise (RetryError not_found), w3) /\
  process_file server_divvy FileController_init "Divvy_Trips_2220_Q1.zip" (initial_world ∅)
  = (Return tt,
     add_record
       {| level := ERROR;
          message := "Divvy_Trips_2220_Q1.zip" +:+ " not found after retries.";
          event := ItemEvent "Divvy_Trips_2220_Q1.zip" (RetriesExhausted not_found) |}
       (semaphore_release w3)).
Proof.
  apply (not_found_is_retried_then_reported server_divvy FileController_init
           "Divvy_Trips_2220_Q1.zip" (initial_world ∅) 4).
  - reflexivity.
  - intros k _. eexists. split; [reflexivity | reflexivity].
Defined.

(** The claim as the specification states it fails for the missing archive
    of [FILE_NAMES]: the first GET is answered with a 404, yet the download
    issues three GETs, what leaves it is a [RetryError] and no
    [FileNotFoundError], and the item is reported as exhausted retries, not
    as [NotFound]. *)
Lemma not_found_is_not_immediate :
  let file_name := "Divvy_Trips_2220_Q1.zip" in
  let w := initial_world ∅ in
  (exists r, http_get server_divvy (uri_of file_name) 0 = GetResponse r /\ status r = 404) /\
  length (requests (snd (download_file server_divvy (file_manager FileController_init)
                           file_name w))) = 3%nat /\
  (forall msg, fst (download_file server_divvy (file_manager FileController_init) file_name w)
               <> Raise (FileNotFoundError msg)) /\
  sleeps (snd (process_file server_divvy FileController_init file_name w)) = [1; 2] /\
  map event (records (snd (process_file server_divvy FileController_init file_name w)))
  = [ItemEvent file_name
       (RetriesExhausted
          (FileNotFoundError "File Divvy_Trips_2220_Q1.zip not found on the server."))] /\
  ~ (length (requests (snd (process_file server_divvy FileController_init file_name w)))
     = 1%nat /\
     map event (records (snd (process_file server_divvy FileController_init file_name w)))
     = [ItemEvent file_name NotFound]).
Proof.
  cbv zeta. split; [eexists; split; reflexivity|].
  split; [reflexivity|]. split; [intros msg; vm_compute; discriminate|].
  split; [reflexivity|]. split; [reflexivity|].
  intros [H _]. vm_compute in H. discriminate.
Qed.


(** ** What a download writes *)

(** C8: a download that returns has requested the URI made of the template
    and the item's name and returns the download directory joined with the
    name; the calls of [file.write] of its last attempt go to that path and
    carry the body of the response in pieces of 1024 bytes, each arrival
    ending with a shorter piece when it is no multiple of 1024; the file
    then holds the pieces, in their order. *)
Theorem download_file_returns_local_path env self file_name w p w' :
  download_file env self file_name w = (Return p, w') ->
  uri_of file_name = "https://divvy-tripdata.s3.amazonaws.com/" +:+ file_name /\
  p = os_path_join (download_dir self) file_name /\
  exists (k : nat) (r : ClientResponse) (earlier : list (string * bytes))
         (chunks : list bytes),
    requests w' = requests w ++ replicate (S k) (uri_of file_name) /\
    http_get env (uri_of file_name)
      (count_occ String.string_dec (requests w) (uri_of file_name) + k) = GetResponse r /\
    writes w' = writes w ++ earlier ++ map (pair p) chunks /\
    (k = 0%nat -> earlier = []) /\
    map length chunks = piece_lengths 1024 (content r) /\
    concat chunks = concat (content r) /\
    files w' !! p = Some (concat chunks).
Proof.
  intros Hdl.
  destruct (download_file_writes env self file_name w p w' Hdl)
    as (k & r & _ & Hget & _ & _ & Hp & Hfile & Hreq & earlier & Hwr & Hfirst & _).
  split; [apply uri_of_eq|]. split; [exact Hp|].
  exists k, r, earlier, (iter_chunked 1024 r).
  split; [exact Hreq|]. split; [exact Hget|]. split; [exact Hwr|]. split; [exact Hfirst|].
  split; [apply iter_chunked_lengths; lia|].
  split; [apply iter_chunked_concat; lia|].
  rewrite iter_chunked_concat by lia. exact Hfile.
Qed.

Lemma download_file_returns_local_path_witness :
  let env := server_large in
  let self := FileManager_init "downloads" in
  let file_name := "Divvy_Trips_2018_Q4.zip" in
  let w := initial_world ∅ in
  let p := "downloads/Divvy_Trips_2018_Q4.zip" in
  let w' := snd (download_file env self file_name w) in
  uri_of file_name = "https://divvy-tripdata.s3.amazonaws.com/" +:+ file_name /\
  p = os_path_join (download_dir self) file_name /\
  exists (k : nat) (r : ClientResponse) (earlier : list (string * bytes))
         (chunks : list bytes),
    requests w' = requests w ++ replicate (S k) (uri_of file_name) /\
    http_get env (uri_of file_name)
      (count_occ String.string_dec (requests w) (uri_of file_name) + k) = GetResponse r /\
    writes w' = writes w ++ earlier ++ map (pair p) chunks /\
    (k = 0%nat -> earlier = []) /\
    map length chunks = piece_lengths 1024 (content r) /\
    concat chunks = concat (content r) /\
    files w' !! p = Some (concat chunks).
Proof.
  intros env self file_name w p w'.
  apply (download_file_returns_local_path env self file_name w p w').
  vm_compute. reflexivity.
Defined.

(** ** One resumption of a task *)

Lemma step_task_effect env self t w t' w' :
  step_task env self t w = Some (t', w') ->
  task_name t' = task_name t /\
  is_terminal t = false /\
  is_crashed t' = false /\
  (task_budget t' < task_budget t)%nat /\
  (holds_slot t = is_downloading t ->
   holds_slot t' = is_downloading t' /\
   (semaphore w' + slot_count t' = semaphore w + slot_count t)%nat) /\
  (if is_terminal t'
   then exists rec, records w' = records w ++ [rec] /\
                    record_item rec = Some (task_name t) /\
                    reports_connection_failure rec = false
   else records w' = records w).
Proof.
  unfold step_task, is_terminal, is_crashed, is_downloading, task_budget, slot_count.
  destruct t as [name st holds]; cbn [task_name stage holds_slot].
  destruct st as [|a|p| | |e]; try discriminate.
  - (* Pending *)
    unfold semaphore_acquire. destruct (semaphore w) as [|n] eqn:Hsem; [discriminate|].
    intros [= <- <-]. cbn. repeat split; auto; try lia; subst; cbn; lia.
  - (* Downloading *)
    destruct (download_attempt_frame env (file_manager self) name w) as [[_ _ L M _] _].
    destruct (download_attempt env (file_manager self) name w) as [[p|e|] w1];
      cbn [fst snd] in *; [| |discriminate].
    + intros [= <- <-]. cbn. repeat split; auto; try lia; subst; cbn; lia.
    + destruct (stop_after_attempt 3 a) eqn:Hstop.
      * destruct (handle_reports name (RetryError e) (semaphore_release w1))
          as (rec & Hh & _ & Hitem & Hconn & _).
        rewrite Hh. cbn [settle]. intros [= <- <-]. cbn.
        split; [reflexivity|]. split; [reflexivity|]. split; [reflexivity|].
        split; [lia|]. split; [intros ->; cbn; split; [reflexivity | lia]|].
        exists rec. rewrite L. repeat split; auto.
      * intros [= <- <-]. cbn. unfold stop_after_attempt in Hstop.
        apply Nat.leb_gt in Hstop.
        repeat split; auto; try lia; subst; cbn; lia.
  - (* Extracting *)
    unfold bind, extract_zip_in_thread.
    destruct (extract_zip_spec env (file_manager self) p w) as ((_ & _ & L & M) & Hres).
    destruct (extract_zip env (file_manager self) p w) as [[u|e|] w1];
      cbn [fst snd] in *; [| |discriminate].
    + unfold log_info. intros [= <- <-]. cbn.
      split; [reflexivity|]. split; [reflexivity|]. split; [reflexivity|].
      split; [lia|]. split; [intros ->; cbn; split; [reflexivity | lia]|].
      eexists. rewrite L. split; [reflexivity|]. split; reflexivity.
    + destruct (handle_reports name e w1) as (rec & Hh & _ & Hitem & Hconn & _).
      rewrite Hh. cbn [settle]. intros [= <- <-]. cbn.
      split; [reflexivity|]. split; [reflexivity|]. split; [reflexivity|].
      split; [lia|]. split; [intros ->; cbn; split; [reflexivity | lia]|].
      exists rec. rewrite L. repeat split; auto.
      rewrite Hconn. apply Hres.
Qed.

(** ** Lists of tasks *)

Lemma insert_decompose {A} (l : list A) (i : nat) (x y : A) :
  l !! i = Some x ->
  exists l1 l2, l = l1 ++ x :: l2 /\ <[i := y]> l = l1 ++ y :: l2.
Proof.
  intros Hi. exists (take i l), (drop (S i) l). split.
  - symmetry. now apply take_drop_middle.
  - apply insert_take_drop. now apply lookup_lt_Some in Hi.
Qed.

Lemma sum_list_map_middle {A} (f : A -> nat) (l1 l2 : list A) (x : A) :
  sum_list_with f (l1 ++ x :: l2)
  = (f x + (sum_list_with f l1 + sum_list_with f l2))%nat.
Proof. rewrite sum_list_with_app. cbn. lia. Qed.

Lemma finished_names_middle (l1 l2 : list Task) (t : Task) :
  finished_names (l1 ++ t :: l2)
  ≡ₚ (if is_terminal t then [task_name t] else []) ++ finished_names (l1 ++ l2).
Proof.
  unfold finished_names. rewrite !List.filter_app, !map_app. cbn [List.filter].
  destruct (is_terminal t); cbn [map app].
  - symmetry. apply Permutation_middle.
  - reflexivity.
Qed.

Lemma finished_names_new_tasks (names : list string) :
  finished_names (map new_task names) = [].
Proof. induction names as [|x l IH]; [reflexivity | exact IH]. Qed.

Lemma finished_names_all (ts : list Task) :
  forallb is_terminal ts = true -> finished_names ts = map task_name ts.
Proof.
  unfold finished_names. induction ts as [|t ts IH]; [reflexivity|].
  cbn. destruct (is_terminal t); [|discriminate].
  intros H. cbn. now rewrite IH.
Qed.

Lemma first_crash_none (ts : list Task) :
  Forall (fun t => is_crashed t = false) ts -> first_crash ts = None.
Proof.
  induction 1 as [|t ts Ht _ IH]; [reflexivity|].
  cbn. unfold is_crashed in Ht. destruct (stage t); try exact IH. discriminate.
Qed.

Lemma omap_record_item_snoc (items : list LogRecord) (rec : LogRecord) (name : string) :
  record_item rec = Some name ->
  omap record_item (items ++ [rec]) = omap record_item items ++ [name].
Proof. intros H. rewrite omap_app. cbn. now rewrite H. Qed.

(** ** The invariant of the runs *)

Lemma initial_run_invariant env self (fs : gmap string bytes) :
  run_invariant env self fs (initial_run fs).
Proof. constructor; cbn; auto. Qed.

Lemma step_inversion env self i r r' :
  step env self (ResumeTask i) r = Some r' ->
  main r = Gathering /\
  exists t t' w',
    tasks r !! i = Some t /\
    step_task env self t (world r) = Some (t', w') /\
    r' = {| world := w'; tasks := <[i := t']> (tasks r); main := Gathering |}.
Proof.
  unfold step. destruct (main r) eqn:Hmain; try discriminate.
  destruct (tasks r !! i) as [t|] eqn:Ht; [|discriminate]. cbn.
  destruct (step_task env self t (world r)) as [[t' w']|] eqn:Hst; [|discriminate]. cbn.
  intros [= <-]. split; [reflexivity|]. exists t, t', w'. auto.
Qed.

Lemma step_task_preserves_invariant env self fs i r r' :
  run_invariant env self fs r ->
  step env self (ResumeTask i) r = Some r' ->
  run_invariant env self fs r'.
Proof.
  intros [Hslots Hhold Hcrash Hnames Hlog Hconn] Hstep.
  destruct (step_inversion _ _ _ _ _ Hstep) as (Hmain & t & t' & w' & Ht & Hst & ->).
  rewrite Hmain in *.
  destruct (step_task_effect _ _ _ _ _ _ Hst)
    as (Hname & Hnonterm & Hnocrash & _ & Hslot & Hrec).
  destruct (insert_decompose (tasks r) i t t' Ht) as (l1 & l2 & Hl & Hl').
  rewrite Hl in *. 
  apply Forall_app in Hhold as [Hh1 Hh2]. apply Forall_cons in Hh2 as [Hht Hh2].
  apply Forall_app in Hcrash as [Hc1 Hc2]. apply Forall_cons in Hc2 as [_ Hc2].
  destruct (Hslot Hht) as [Hht' Hsem].
  unfold item_records_of in *.
  constructor; cbn [world tasks main]; try rewrite Hl'.
  - rewrite sum_list_map_middle in *. lia.
  - apply Forall_app. split; [exact Hh1|]. apply Forall_cons. split; assumption.
  - apply Forall_app. split; [exact Hc1|]. apply Forall_cons. split; assumption.
  - rewrite map_app in *. cbn [map] in *. now rewrite Hname.
  - destruct Hlog as (Hmk & items & Hitems & Hall & Hperm). split; [exact Hmk|].
    rewrite finished_names_middle in Hperm. rewrite Hnonterm in Hperm. cbn [app] in Hperm.
    destruct (is_terminal t') eqn:Hterm.
    + destruct Hrec as (rec & Hrec & Hitem & _).
      exists (items ++ [rec]). split; [rewrite Hrec, Hitems; reflexivity|].
      split.
      * apply Forall_app. split; [exact Hall|]. constructor; [|constructor].
        rewrite Hitem. eauto.
      * rewrite (omap_record_item_snoc _ _ _ Hitem), finished_names_middle, Hterm, Hname.
        rewrite Hperm. cbn [app]. symmetry. apply Permutation_cons_append.
    + exists items. split; [congruence|]. split; [exact Hall|].
      now rewrite finished_names_middle, Hterm.
  - destruct (is_terminal t').
    + destruct Hrec as (rec & -> & _ & Hnc).
      apply Forall_app. split; [exact Hconn|]. constructor; [exact Hnc | constructor].
    + now rewrite Hrec.
Qed.

(** The start of [process_files]: the directory is made, or the exception
    of [os.makedirs] leaves before anything is logged. *)
Lemma step_main_start env self r :
  main r = NotStarted ->
  step_main env self r =
  Some match os_makedirs env (files (world r)) (download_dir (file_manager self)) with
       | Some e => {| world := world r; tasks := tasks r; main := Aborted (raised e) |}
       | None => {| world := add_record start_record (world r);
                    tasks := map new_task (file_names self); main := Gathering |}
       end.
Proof.
  intros Hmain. unfold step_main. rewrite Hmain.
  unfold bind, ensure_dir_exists.
  destruct (os_makedirs env (files (world r)) (download_dir (file_manager self)));
    reflexivity.
Qed.

Lemma step_main_preserves_invariant env self fs r r' :
  run_invariant env self fs r ->
  step_main env self r = Some r' ->
  run_invariant env self fs r'.
Proof.
  intros [Hslots Hhold Hcrash Hnames Hlog Hconn].
  destruct (main r) eqn:Hmain.
  - (* the start *)
    rewrite (step_main_start env self r Hmain).
    destruct r as [w ts m]; cbn [world tasks main] in *. subst m w ts.
    cbn [files initial_world].
    destruct (os_makedirs env fs (download_dir (file_manager self))) as [e|] eqn:Hmk;
      intros [= <-].
    + constructor; cbn [world tasks main]; auto.
      split; [reflexivity|]. exists e. auto.
    + constructor; cbn [world tasks main].
      * assert (H0 : sum_list_with slot_count (map new_task (file_names self)) = 0%nat)
          by (induction (file_names self) as [|x l IH]; [reflexivity | exact IH]).
        rewrite H0. cbn. unfold SEMAPHORE_VALUE. lia.
      * induction (file_names self) as [|x l IH]; constructor; [reflexivity | exact IH].
      * induction (file_names self) as [|x l IH]; constructor; [reflexivity | exact IH].
      * rewrite map_map. cbn. apply map_id.
      * split; [exact Hmk|]. exists []. cbn. split; [reflexivity|].
        unfold item_records_of. split; [constructor|].
        now rewrite finished_names_new_tasks.
      * cbn. repeat constructor.
  - (* the end *)
    unfold step_main. rewrite Hmain.
    rewrite (first_crash_none _ Hcrash).
    destruct (forallb is_terminal (tasks r)) eqn:Hall; [|discriminate].
    cbn. intros [= <-].
    destruct Hlog as (Hmk & items & Hitems & Hrec).
    constructor; cbn [world tasks main]; auto.
    + split; [exact Hmk|]. exists items. cbn. rewrite Hitems. auto.
    + cbn. apply Forall_app. split; [exact Hconn | repeat constructor].
  - unfold step_main. rewrite Hmain. discriminate.
  - unfold step_main. rewrite Hmain. discriminate.
Qed.

Lemma step_preserves_invariant env self fs c r r' :
  run_invariant env self fs r -> step env self c r = Some r' -> run_invariant env self fs r'.
Proof.
  destruct c as [|i].
  - apply step_main_preserves_invariant.
  - apply step_task_preserves_invariant.
Qed.

Lemma run_schedule_invariant env self fs schedule r :
  run_invariant env self fs r -> run_invariant env self fs (run_schedule env self schedule r).
Proof.
  revert r. induction schedule as [|c rest IH]; intros r Hinv; [exact Hinv|].
  cbn. destruct (step env self c r) as [r'|] eqn:Hstep.
  - apply IH. eapply step_preserves_invariant; eassumption.
  - apply IH, Hinv.
Qed.

(** ** Progress and termination of the runs *)

Lemma step_task_blocked env self t w :
  step_task env self t w = None ->
  is_crashed t = false ->
  is_terminal t = true \/ (stage t = Pending /\ semaphore w = 0%nat).
Proof.
  unfold step_task, is_crashed, is_terminal.
  destruct (stage t) as [|a|p| | |e]; auto; try discriminate.
  - unfold semaphore_acquire. destruct (semaphore w); [auto | discriminate].
  - destruct (download_attempt_frame env (file_manager self) (task_name t) w) as [_ B].
    destruct (download_attempt env (file_manager self) (task_name t) w) as [[p|e|] w1];
      cbn [fst] in B; [discriminate| |congruence].
    destruct (stop_after_attempt 3 a); discriminate.
  - unfold bind, extract_zip_in_thread.
    destruct (extract_zip_spec env (file_manager self) p w) as (_ & Hres).
    destruct (extract_zip env (file_manager self) p w) as [[u|e|] w1];
      cbn [fst] in Hres; [discriminate | discriminate | contradiction].
Qed.

Lemma first_runnable_some env self w ts base j :
  first_runnable env self w ts base = Some j ->
  exists i t, j = (base + i)%nat /\ ts !! i = Some t /\
              is_Some (step_task env self t w).
Proof.
  revert base. induction ts as [|t ts IH]; intros base; [discriminate|].
  cbn. destruct (step_task env self t w) as [res|] eqn:Hst.
  - intros [= <-]. exists 0%nat, t. rewrite Hst. split; [lia|]. split; [reflexivity | eauto].
  - intros H. destruct (IH _ H) as (i & t0 & -> & Hi & Hs).
    exists (S i), t0. split; [lia|]. split; [exact Hi | exact Hs].
Qed.

Lemma first_runnable_none env self w ts base :
  first_runnable env self w ts base = None ->
  Forall (fun t => step_task env self t w = None) ts.
Proof.
  revert base. induction ts as [|t ts IH]; intros base; [constructor|].
  cbn. destruct (step_task env self t w) eqn:Hst; [discriminate|].
  intros H. constructor; [exact Hst | eapply IH, H].
Qed.

(** When no task can run, none holds a slot. *)
Lemma blocked_tasks_hold_nothing (sem : nat) (ts : list Task) :
  Forall (fun t => is_terminal t = true \/ (stage t = Pending /\ sem = 0%nat)) ts ->
  Forall (fun t => holds_slot t = is_downloading t) ts ->
  sum_list_with slot_count ts = 0%nat.
Proof.
  induction 1 as [|t ts Ht _ IH]; intros Hh; [reflexivity|].
  apply Forall_cons in Hh as [Hht Hh]. cbn. rewrite (IH Hh).
  unfold slot_count. rewrite Hht. unfold is_downloading, is_terminal in *.
  destruct Ht as [Ht | [Ht _]]; destruct (stage t); try discriminate; reflexivity.
Qed.

Lemma stuck_tasks_are_over env self fs r :
  run_invariant env self fs r ->
  Forall (fun t => step_task env self t (world r) = None) (tasks r) ->
  forallb is_terminal (tasks r) = true.
Proof.
  intros [Hslots Hhold Hcrash _ _ _] Hnone.
  assert (Hblocked : Forall (fun t => is_terminal t = true \/
                               (stage t = Pending /\ semaphore (world r) = 0%nat)) (tasks r)).
  { rewrite Forall_forall in *. intros t Ht.
    apply (step_task_blocked env self); auto. }
  pose proof (blocked_tasks_hold_nothing _ _ Hblocked Hhold) as Hsum.
  rewrite Hsum in Hslots. unfold SEMAPHORE_VALUE in Hslots.
  apply forallb_forall. intros t Ht. apply list_elem_of_In in Ht.
  rewrite Forall_forall in Hblocked.
  destruct (Hblocked t Ht) as [H | [_ H]]; [exact H | lia].
Qed.

Lemma progress env self fs r :
  run_invariant env self fs r ->
  main r = Gathering ->
  exists c r', next_choice env self r = Some c /\ step env self c r = Some r'.
Proof.
  intros Hinv Hmain. unfold next_choice.
  destruct (step_main env self r) as [r'|] eqn:Hsm; [exists ResumeMain, r'; auto|].
  rewrite Hmain.
  destruct (first_runnable env self (world r) (tasks r) 0) as [j|] eqn:Hfr.
  - destruct (first_runnable_some _ _ _ _ _ _ Hfr) as (i & t & -> & Hi & [[t' w'] Hst]).
    cbn. eexists _, _. split; [reflexivity|].
    unfold step. rewrite Hmain, Hi. cbn. rewrite Hst. cbn. reflexivity.
  - exfalso. apply first_runnable_none in Hfr.
    pose proof (stuck_tasks_are_over env self fs r Hinv Hfr) as Hall.
    unfold step_main in Hsm. rewrite Hmain in Hsm.
    rewrite (first_crash_none _ (inv_no_crash _ _ _ _ Hinv)), Hall in Hsm. discriminate.
Qed.

Lemma step_decreases_budget env self fs c r r' :
  run_invariant env self fs r ->
  main r = Gathering ->
  step env self c r = Some r' ->
  (main r' = Returned \/ main r' = Gathering) /\ (run_budget r' < run_budget r)%nat.
Proof.
  intros Hinv Hmain Hstep. destruct c as [|i].
  - cbn in Hstep. unfold step_main in Hstep. rewrite Hmain in Hstep.
    rewrite (first_crash_none _ (inv_no_crash _ _ _ _ Hinv)) in Hstep.
    destruct (forallb is_terminal (tasks r)); [|discriminate].
    cbn in Hstep. injection Hstep as <-. unfold run_budget. rewrite Hmain. cbn.
    split; [auto | lia].
  - destruct (step_inversion _ _ _ _ _ Hstep) as (_ & t & t' & w' & Ht & Hst & ->).
    destruct (step_task_effect _ _ _ _ _ _ Hst) as (_ & _ & _ & Hb & _).
    destruct (insert_decompose (tasks r) i t t' Ht) as (l1 & l2 & Hl & Hl').
    unfold run_budget. rewrite Hmain. cbn [main tasks]. rewrite Hl', Hl.
    rewrite !sum_list_map_middle. split; [auto | lia].
Qed.

Lemma run_loop_over env self fuel r :
  main r = Returned -> run_loop env self fuel r = r.
Proof.
  intros Hmain. destruct fuel; [reflexivity|].
  cbn. unfold next_choice, step_main. now rewrite Hmain.
Qed.

Lemma run_loop_gathering_returns env self fs fuel r :
  run_invariant env self fs r ->
  main r = Gathering ->
  (run_budget r <= fuel)%nat ->
  main (run_loop env self fuel r) = Returned.
Proof.
  revert r. induction fuel as [|fuel IH]; intros r Hinv Hmain Hfuel.
  - unfold run_budget in Hfuel. rewrite Hmain in Hfuel. lia.
  - destruct (progress env self fs r Hinv Hmain) as (c & r' & Hc & Hstep).
    cbn. rewrite Hc, Hstep.
    destruct (step_decreases_budget _ _ _ _ _ _ Hinv Hmain Hstep) as [[Hm | Hm] Hb].
    + now rewrite run_loop_over.
    + apply IH; [eapply step_preserves_invariant; eassumption | exact Hm | lia].
Qed.

Lemma run_budget_new_tasks (names : list string) :
  sum_list_with task_budget (map new_task names) = (5 * length names)%nat.
Proof. induction names as [|x l IH]; [reflexivity|]. cbn in *. lia. Qed.

Lemma run_loop_returns env self fs fuel r :
  run_invariant env self fs r ->
  os_makedirs env fs (download_dir (file_manager self)) = None ->
  (run_budget r + 5 * length (file_names self) + 2 <= fuel)%nat ->
  main (run_loop env self fuel r) = Returned.
Proof.
  intros Hinv Hmk Hfuel.
  destruct (main r) eqn:Hmain.
  - (* not started: one resumption creates the tasks *)
    destruct fuel as [|fuel]; [lia|].
    cbn. unfold next_choice.
    assert (Hsm : step_main env self r
                  = Some {| world := add_record start_record (world r);
                            tasks := map new_task (file_names self);
                            main := Gathering |}).
    { rewrite (step_main_start env self r Hmain).
      pose proof (inv_log _ _ _ _ Hinv) as Hlog. rewrite Hmain in Hlog.
      rewrite Hlog at 1. cbn [files initial_world]. now rewrite Hmk. }
    rewrite Hsm. cbn [step]. rewrite Hsm.
    apply (run_loop_gathering_returns env self fs).
    + eapply step_main_preserves_invariant; eassumption.
    + reflexivity.
    + unfold run_budget. cbn [main tasks]. rewrite run_budget_new_tasks. lia.
  - apply (run_loop_gathering_returns env self fs); auto. lia.
  - now rewrite run_loop_over.
  - pose proof (inv_log _ _ _ _ Hinv) as Hlog. rewrite Hmain in Hlog.
    destruct Hlog as (_ & e & He & _). congruence.
Qed.

Lemma run_loop_is_a_schedule env self fuel r :
  exists schedule, run_schedule env self schedule r = run_loop env self fuel r.
Proof.
  revert r. induction fuel as [|fuel IH]; intros r; [exists []; reflexivity|].
  cbn. destruct (next_choice env self r) as [c|]; [|exists []; reflexivity].
  destruct (step env self c r) as [r'|] eqn:Hstep; [|exists []; reflexivity].
  destruct (IH r') as [schedule Hs]. exists (c :: schedule). cbn. now rewrite Hstep.
Qed.

Lemma run_schedule_app env self s1 s2 r :
  run_schedule env self (s1 ++ s2) r
  = run_schedule env self s2 (run_schedule env self s1 r).
Proof.
  revert r. induction s1 as [|c s1 IH]; intros r; [reflexivity|].
  cbn. destruct (step env self c r); apply IH.
Qed.

(** ** One item *)







(** ** The download slots *)

Lemma slots_held_are_downloads (ts : list Task) :
  Forall (fun t => holds_slot t = is_downloading t) ts ->
  sum_list_with slot_count ts = length (List.filter is_downloading ts).
Proof.
  induction 1 as [|t ts Ht _ IH]; [reflexivity|].
  cbn. unfold slot_count at 1. rewrite Ht, IH.
  destruct (is_downloading t); reflexivity.
Qed.

(** Only a task inside the with block issues a GET. *)
Lemma step_task_requests env self t w t' w' :
  step_task env self t w = Some (t', w') ->
  requests w' <> requests w ->
  is_downloading t = true.
Proof.
  unfold step_task, is_downloading.
  destruct (stage t) as [|a|p| | |e]; try discriminate; [| reflexivity |].
  - unfold semaphore_acquire. destruct (semaphore w); [discriminate|].
    intros [= <- <-]. cbn. congruence.
  - unfold bind, extract_zip_in_thread.
    destruct (extract_zip_spec env (file_manager self) p w) as ((R & _) & _).
    destruct (extract_zip env (file_manager self) p w) as [[u|e|] w1];
      cbn [fst snd] in *; [| |discriminate].
    + intros [= <- <-]. cbn. congruence.
    + destruct (handle_reports (task_name t) e w1) as (rec & Hh & _).
      rewrite Hh. intros [= <- <-]. cbn. congruence.
Qed.

(** C4: in every state of every run, the tasks inside the with block are
    at most 5, and they are exactly the tasks that hold a slot of the
    semaphore: a task that waits for the semaphore, that extracts, or that
    is over holds none; and a GET is only issued by a task that holds one. *)
Theorem at_most_five_downloads_in_flight env self fs schedule :
  let r := run_schedule env self schedule (initial_run fs) in
  (length (List.filter is_downloading (tasks r)) <= 5)%nat /\
  (semaphore (world r) + length (List.filter is_downloading (tasks r)) = 5)%nat /\
  Forall (fun t => holds_slot t = is_downloading t) (tasks r) /\
  Forall (fun t => if is_extracting t then holds_slot t = false else True) (tasks r) /\
  (forall i,
     match step env self (ResumeTask i) r with
     | Some r' =>
         requests (world r') = requests (world r) \/
         exists t, tasks r !! i = Some t /\ holds_slot t = true
     | None => True
     end).
Proof.
  intros r.
  assert (Hinv : run_invariant env self fs r)
    by apply run_schedule_invariant, initial_run_invariant.
  destruct Hinv as [Hslots Hhold _ _ _ _].
  rewrite (slots_held_are_downloads _ Hhold) in Hslots. unfold SEMAPHORE_VALUE in Hslots.
  split; [lia|]. split; [exact Hslots|]. split; [exact Hhold|]. split.
  - eapply Forall_impl; [exact Hhold|]. intros t Ht. cbn in Ht.
    unfold is_extracting, is_downloading in *. destruct (stage t); auto.
  - intros i. destruct (step env self (ResumeTask i) r) as [r'|] eqn:Hstep; [|exact I].
    destruct (step_inversion _ _ _ _ _ Hstep) as (_ & t & t' & w' & Ht & Hst & ->).
    cbn [world].
    destruct (decide (requests w' = requests (world r))) as [Heq|Hne]; [left; exact Heq|].
    right. exists t. split; [exact Ht|].
    rewrite Forall_forall in Hhold. rewrite (Hhold t).
    + eapply step_task_requests; eassumption.
    + eapply list_elem_of_lookup_2, Ht.
Qed.

(** ** The whole pipeline *)

(** C7 (as in the source): when [os.makedirs] raises nothing,
    [process_files] logs its start and creates one task per name, all of
    them before any runs; whatever the order in which the event loop
    resumes the tasks, it has not returned while a task is not over, the
    log then holds the start record, one record per item, and the end
    record, in this order; and every run can be continued until it has
    returned. *)
Theorem process_files_returns_after_all_items env self fs :
  os_makedirs env fs (download_dir (file_manager self)) = None ->
  step_main env self (initial_run fs)
  = Some {| world := add_record start_record (initial_world fs);
            tasks := map new_task (file_names self);
            main := Gathering |} /\
  (forall schedule,
     exists rest,
       main (run_schedule env self (schedule ++ rest) (initial_run fs)) = Returned) /\
  (forall schedule,
     let r := run_schedule env self schedule (initial_run fs) in
     match main r with
     | NotStarted => records (world r) = []
     | Gathering =>
         exists items,
           records (world r) = start_record :: items /\
           Forall (fun rec => is_Some (record_item rec)) items /\
           omap record_item items ≡ₚ finished_names (tasks r)
     | Returned =>
         forallb is_terminal (tasks r) = true /\
         map task_name (tasks r) = file_names self /\
         exists items,
           records (world r) = start_record :: items ++ [end_record] /\
           Forall (fun rec => is_Some (record_item rec)) items /\
           omap record_item items ≡ₚ file_names self
     | Aborted _ => False
     end).
Proof.
  intros Hmk. split; [|split].
  - rewrite step_main_start by reflexivity. cbn [world initial_run files initial_world].
    now rewrite Hmk.
  - intros schedule.
    set (r := run_schedule env self schedule (initial_run fs)).
    assert (Hinv : run_invariant env self fs r)
      by apply run_schedule_invariant, initial_run_invariant.
    destruct (run_loop_is_a_schedule env self
                (run_budget r + 5 * length (file_names self) + 2) r) as [rest Hrest].
    exists rest. rewrite run_schedule_app. fold r. rewrite Hrest.
    apply (run_loop_returns env self fs); [exact Hinv | exact Hmk | lia].
  - intros schedule r.
    assert (Hinv : run_invariant env self fs r)
      by apply run_schedule_invariant, initial_run_invariant.
    destruct Hinv as [_ _ _ Hnames Hlog _]. unfold item_records_of in Hlog.
    destruct (main r).
    + now rewrite Hlog.
    + destruct Hlog as (_ & items & Hrec & Hall & Hperm). eauto.
    + destruct Hlog as (_ & items & Hrec & [Hall Hperm] & Hover).
      split; [exact Hover|]. split; [exact Hnames|].
      exists items. split; [exact Hrec|]. split; [exact Hall|].
      now rewrite Hperm, (finished_names_all _ Hover), Hnames.
    + destruct Hlog as (_ & e & He & _). congruence.
Qed.

Lemma process_files_returns_after_all_items_witness :
  step_main server_divvy FileController_init (initial_run ∅)
  = Some {| world := add_record start_record (initial_world ∅);
            tasks := map new_task (file_names FileController_init);
            main := Gathering |} /\
  (forall schedule,
     exists rest,
       main (run_schedule server_divvy FileController_init (schedule ++ rest)
               (initial_run ∅)) = Returned) /\
  (forall schedule,
     let r := run_schedule server_divvy FileController_init schedule (initial_run ∅) in
     match main r with
     | NotStarted => records (world r) = []
     | Gathering =>
         exists items,
           records (world r) = start_record :: items /\
           Forall (fun rec => is_Some (record_item rec)) items /\
           omap record_item items ≡ₚ finished_names (tasks r)
     | Returned =>
         forallb is_terminal (tasks r) = true /\
         map task_name (tasks r) = file_names FileController_init /\
         exists items,
           records (world r) = start_record :: items ++ [end_record] /\
           Forall (fun rec => is_Some (record_item rec)) items /\
           omap record_item items ≡ₚ file_names FileController_init
     | Aborted _ => False
     end).
Proof.
  apply (process_files_returns_after_all_items server_divvy FileController_init ∅).
  reflexivity.
Defined.

(** The claim as the specification states it fails on a disk where
    [downloads] is a regular file: [os.makedirs] raises a
    [FileExistsError], which leaves [process_files] before the start is
    logged; no task is created, nothing is logged, and no schedule makes
    [process_files] return. *)
Lemma process_files_raises_without_directory :
  let fs : gmap string bytes := {[ "downloads" := [Byte.x2a] ]} in
  let error := OtherError "FileExistsError" "[Errno 17] File exists: downloads" in
  step_main server_divvy FileController_init (initial_run fs)
  = Some {| world := initial_world fs; tasks := []; main := Aborted error |} /\
  forall schedule,
    let r := run_schedule server_divvy FileController_init schedule (initial_run fs) in
    main r <> Returned /\ main r <> Gathering /\
    tasks r = [] /\ records (world r) = [].
Proof.
  intros fs error. split; [reflexivity|].
  intros schedule r.
  assert (Hinv : run_invariant server_divvy FileController_init fs r)
    by apply run_schedule_invariant, initial_run_invariant.
  destruct Hinv as [_ _ _ Hnames Hlog _].
  destruct (main r).
  - rewrite Hlog. repeat split; try discriminate; auto.
  - destruct Hlog as [Hmk _]. discriminate Hmk.
  - destruct Hlog as [Hmk _]. discriminate Hmk.
  - destruct Hlog as [Hw _]. rewrite Hw. repeat split; try discriminate; auto.
Qed.

(** ** Extraction *)

Lemma sample_extraction_only_writes get : extraction_only_writes (sample_env get).
Proof.
  intros data path fs q Hq. cbn [zip_extractall sample_env]. unfold sample_extractall.
  assert (Hins : forall d, is_Some (<[os_path_join path "trips.csv" := d]> fs !! q)).
  { intros d. destruct (decide (os_path_join path "trips.csv" = q)) as [->|Hne].
    - rewrite lookup_insert_eq. eauto.
    - now rewrite lookup_insert_ne. }
  destruct data as [|b data]; [exact Hq|].
  destruct b; first [exact Hq | apply Hins].
Qed.



Lemma extract_zip_missing env self file_path w :
  files w !! file_path = None ->
  extract_zip env self file_path w
  = (Raise (FileNotFoundError ("[Errno 2] No such file or directory: " +:+ file_path)), w).
Proof. intros H. now rewrite extract_zip_unfold, H. Qed.




(** ** The task machine against [process_file] *)

Lemma settle_world file_name (r : Result unit * World) :
  snd (settle file_name r) = snd r.
Proof. destruct r as [[u|e|] w]; reflexivity. Qed.

Lemma run_task_step env self fuel t w :
  run_task env self (S fuel) t w
  = match step_task env self t w with
    | Some (t', w') => run_task env self fuel t' w'
    | None => (t, w)
    end.
Proof. reflexivity. Qed.

Lemma run_task_over env self fuel t w :
  is_terminal t = true -> run_task env self fuel t w = (t, w).
Proof.
  intros Ht. destruct fuel; [reflexivity|]. cbn.
  unfold step_task. unfold is_terminal in Ht. destruct (stage t); try discriminate; reflexivity.
Qed.

Lemma run_task_extracting env self fuel file_name zip_path w :
  let t := {| task_name := file_name; stage := Extracting zip_path; holds_slot := false |} in
  snd (run_task env self (S fuel) t w)
  = snd (match extract_zip env (file_manager self) zip_path w with
         | (Return _, w2) =>
             log_info (ItemEvent file_name Success) ("Processed " +:+ file_name) w2
         | (Raise e, w2) => handle file_name e w2
         | (Blocked, w2) => (Blocked, w2)
         end) /\
  is_terminal (fst (run_task env self (S fuel) t w)) = true.
Proof.
  intros t. cbn [run_task]. unfold step_task. cbn [stage task_name t].
  unfold bind, extract_zip_in_thread.
  destruct (extract_zip_spec env (file_manager self) zip_path w) as (_ & Hres).
  destruct (extract_zip env (file_manager self) zip_path w) as [[u|e|] w2];
    cbn [fst] in Hres; [| |contradiction].
  - unfold log_info. rewrite run_task_over by reflexivity. split; reflexivity.
  - destruct (handle_reports file_name e w2) as (rec & Hh & _).
    rewrite Hh. cbn [settle]. rewrite run_task_over by reflexivity. split; reflexivity.
Qed.

(** A task that runs alone goes through [process_file]. *)
Lemma run_task_process_file env self file_name w n :
  semaphore w = S n ->
  snd (run_task env self 5 (new_task file_name) w)
  = snd (process_file env self file_name w) /\
  is_terminal (fst (run_task env self 5 (new_task file_name) w)) = true.
Proof.
  intros Hsem. rewrite process_file_unfold, Hsem, download_file_unfold.
  rewrite run_task_step. unfold step_task. cbn [new_task stage task_name].
  unfold semaphore_acquire. rewrite Hsem.
  (* first attempt *)
  rewrite run_task_step. unfold step_task. cbn [stage task_name].
  destruct (download_attempt_frame env (file_manager self) file_name (set_semaphore n w))
    as [_ B1].
  destruct (download_attempt env (file_manager self) file_name (set_semaphore n w))
    as [[p|e1|] w1]; cbn [fst] in B1; [| |congruence].
  { apply (run_task_extracting env self 2). }
  cbn [stop_after_attempt Nat.leb]. change (wait_exponential 1 1 10 1) with 1.
  (* second attempt *)
  rewrite run_task_step. unfold step_task. cbn [stage task_name].
  destruct (download_attempt_frame env (file_manager self) file_name (add_sleep 1 w1))
    as [_ B2].
  destruct (download_attempt env (file_manager self) file_name (add_sleep 1 w1))
    as [[p|e2|] w2]; cbn [fst] in B2; [| |congruence].
  { apply (run_task_extracting env self 1). }
  cbn [stop_after_attempt Nat.leb]. change (wait_exponential 1 1 10 2) with 2.
  (* third attempt *)
  rewrite run_task_step. unfold step_task. cbn [stage task_name].
  destruct (download_attempt_frame env (file_manager self) file_name (add_sleep 2 w2))
    as [_ B3].
  destruct (download_attempt env (file_manager self) file_name (add_sleep 2 w2))
    as [[p|e3|] w3]; cbn [fst] in B3; [| |congruence].
  { apply (run_task_extracting env self 0). }
  cbn [stop_after_attempt Nat.leb].
  destruct (handle_reports file_name (RetryError e3) (semaphore_release w3)) as (rec & Hh & _).
  rewrite Hh. cbn [settle]. rewrite run_task_over by reflexivity. split; reflexivity.
Qed.

(** ** Sample runs *)

(** The seven names of the controller, under its event-loop order. *)
Example divvy_run_in_order :
  let r := run_loop server_divvy FileController_init 37 (initial_run ∅) in
  main r = Returned /\
  map stage (tasks r) = [Done; Done; Done; Done; Done; Done; Failed] /\
  omap record_item (records (world r)) = FILE_NAMES /\
  semaphore (world r) = 5%nat.
Proof. vm_compute. auto. Qed.

(** After the start and one resumption of each task, five downloads are in
    flight and the semaphore is down to 0: the sixth task cannot run. *)
Example divvy_five_in_flight :
  let r := run_schedule server_divvy FileController_init schedule_first_round
             (initial_run ∅) in
  map stage (tasks r)
  = [Downloading 1; Downloading 1; Downloading 1; Downloading 1; Downloading 1;
     Pending; Pending] /\
  semaphore (world r) = 0%nat /\
  step server_divvy FileController_init (ResumeTask 5) r = None.
Proof. vm_compute. auto. Qed.

(** Another order of resumption: the items complete in another order, and
    each is reported once. *)
Example divvy_run_backwards :
  let r := run_schedule server_divvy FileController_init schedule_backwards
             (initial_run ∅) in
  main r = Returned /\
  map stage (tasks r) = [Done; Done; Done; Done; Done; Done; Failed] /\
  omap record_item (records (world r))
  = ["Divvy_Trips_2020_Q1.zip"; "Divvy_Trips_2019_Q4.zip"; "Divvy_Trips_2019_Q3.zip";
     "Divvy_Trips_2019_Q2.zip"; "Divvy_Trips_2220_Q1.zip"; "Divvy_Trips_2019_Q1.zip";
     "Divvy_Trips_2018_Q4.zip"].
Proof. vm_compute. auto. Qed.

(** An archive with a damaged member: the extraction stops, the archive
    stays, and the item is reported as an unexpected failure. *)
Example damaged_member_keeps_archive :
  let r := process_file server_damaged FileController_init "Divvy_Trips_2019_Q3.zip"
             (initial_world ∅) in
  fst r = Return tt /\
  map event (records (snd r))
  = [ItemEvent "Divvy_Trips_2019_Q3.zip"
       (UnexpectedFailure (BadZipFile "Bad CRC-32 for file 'trips.csv'"))] /\
  files (snd r) !! "downloads/Divvy_Trips_2019_Q3.zip" = Some [Byte.x00; Byte.x01].
Proof. vm_compute. auto. Qed.

(** The pieces of an arrival of 2500 bytes followed by one of 10 bytes. *)
Example iter_chunked_sizes :
  map length
    (iter_chunked 1024
       {| status := 200;
          content := [replicate 2500 Byte.x00; replicate 10 Byte.x01];
          content_end := Eof |})
  = [1024; 1024; 452; 10]%nat.
Proof. reflexivity. Qed.

(** The waits that the decorator's wait function yields after attempts 1 to 6. *)
Example wait_exponential_values :
  map (wait_exponential 1 1 10) [1; 2; 3; 4; 5; 6]%nat = [1; 2; 4; 8; 10; 10].
Proof. reflexivity. Qed.

Example os_path_join_values :
  os_path_join "downloads" "Divvy_Trips_2018_Q4.zip" = "downloads/Divvy_Trips_2018_Q4.zip" /\
  os_path_join "downloads/" "a.zip" = "downloads/a.zip" /\
  os_path_join "downloads" "/tmp/a.zip" = "/tmp/a.zip" /\
  os_path_join "" "a.zip" = "a.zip".
Proof. repeat split; reflexivity. Qed.

(** * Further properties *)

(** ** Names, URIs and local paths *)

Lemma append_cancel_l (s a b : string) : s +:+ a = s +:+ b -> a = b.
Proof.
  induction s as [|c s IH]; intros H; [exact H|].
  change (String c (s +:+ a) = String c (s +:+ b)) in H.
  injection H as H. auto.
Qed.

Lemma uri_of_injective (a b : string) : uri_of a = uri_of b -> a = b.
Proof. rewrite !uri_of_eq. apply append_cancel_l. Qed.

Lemma os_path_join_relative (d a : string) :
  startswith a "/" = false ->
  os_path_join d a = if (String.eqb d "" || endswith_sep d)%bool then d +:+ a
                     else d +:+ "/" +:+ a.
Proof. intros H. unfold os_path_join. now rewrite H. Qed.

(** X1: Two items with different names are fetched from different URIs and,
    when the names are relative, written to different local files. *)
Theorem different_names_are_kept_apart (self : FileManager) (a b : string) :
  a <> b ->
  uri_of a <> uri_of b /\
  (startswith a "/" = false -> startswith b "/" = false ->
   os_path_join (download_dir self) a <> os_path_join (download_dir self) b).
Proof.
  intros Hne. split.
  - intros H. apply Hne, uri_of_injective, H.
  - intros Ha Hb H. apply Hne.
    rewrite (os_path_join_relative _ _ Ha), (os_path_join_relative _ _ Hb) in H.
    destruct (String.eqb (download_dir self) "" || endswith_sep (download_dir self))%bool.
    + eapply append_cancel_l, H.
    + apply append_cancel_l in H. apply (append_cancel_l "/"), H.
Qed.

Lemma different_names_are_kept_apart_witness :
  uri_of "Divvy_Trips_2018_Q4.zip" <> uri_of "Divvy_Trips_2019_Q1.zip" /\
  (startswith "Divvy_Trips_2018_Q4.zip" "/" = false ->
   startswith "Divvy_Trips_2019_Q1.zip" "/" = false ->
   os_path_join (download_dir (FileManager_init "downloads")) "Divvy_Trips_2018_Q4.zip"
   <> os_path_join (download_dir (FileManager_init "downloads")) "Divvy_Trips_2019_Q1.zip").
Proof.
  apply (different_names_are_kept_apart (FileManager_init "downloads")
           "Divvy_Trips_2018_Q4.zip" "Divvy_Trips_2019_Q1.zip").
  discriminate.
Defined.

(** X2: An absolute name leaves the download directory: the file that a
    returning download has written is the name itself. *)
Theorem absolute_name_ignores_download_dir env self file_name w p w' :
  startswith file_name "/" = true ->
  download_file env self file_name w = (Return p, w') ->
  p = file_name /\ is_Some (files w' !! file_name).
Proof.
  intros Habs Hdl.
  destruct (download_file_writes _ _ _ _ _ _ Hdl) as (k & r & _ & _ & _ & _ & Hp & Hfile & _).
  unfold os_path_join in Hp. rewrite Habs in Hp. subst p.
  split; [reflexivity | rewrite Hfile; eauto].
Qed.

Lemma absolute_name_ignores_download_dir_witness :
  "/etc/cron.d/job" = "/etc/cron.d/job" /\
  is_Some (files (snd (download_file server_divvy (FileManager_init "downloads")
                         "/etc/cron.d/job" (initial_world ∅))) !! "/etc/cron.d/job").
Proof.
  apply (absolute_name_ignores_download_dir server_divvy (FileManager_init "downloads")
           "/etc/cron.d/job" (initial_world ∅) "/etc/cron.d/job"
           (snd (download_file server_divvy (FileManager_init "downloads")
                   "/etc/cron.d/job" (initial_world ∅)))).
  - reflexivity.
  - vm_compute. reflexivity.
Defined.

(** ** Requests that deliver nothing *)

Lemma download_attempt_no_body env self file_name w :
  match http_get env (uri_of file_name)
          (count_occ String.string_dec (requests w) (uri_of file_name)) with
  | GetRaises _ => True
  | GetResponse r => 400 <= status r
  end ->
  exists e, download_attempt env self file_name w
            = (Raise e, add_request (uri_of file_name) w).
Proof.
  intros H. rewrite download_attempt_unfold.
  destruct (http_get env _ _) as [e|r]; [eauto|].
  destruct (status r =? 404); [eauto|].
  destruct (Z.leb_spec 400 (status r)); [eauto | lia].
Qed.

(** X3: An item for which no GET delivers a body leaves the file system as it
    was: no empty or partial local file is created; the three GETs are
    issued and the item is reported once. *)
Theorem undelivered_item_leaves_files env self file_name w n :
  semaphore w = S n ->
  never_delivers env (uri_of file_name) ->
  let w' := snd (process_file env self file_name w) in
  files w' = files w /\
  requests w' = requests w ++ replicate 3 (uri_of file_name) /\
  sleeps w' = sleeps w ++ [1; 2] /\
  exists cause,
    map record_outcome (drop (length (records w)) (records w'))
    = [Some (RetriesExhausted cause)].
Proof.
  intros Hsem Hnever w'. subst w'.
  rewrite process_file_unfold, Hsem, download_file_unfold.
  destruct (download_attempt_no_body env (file_manager self) file_name (set_semaphore n w)
              (Hnever _)) as [e1 ->].
  destruct (download_attempt_no_body env (file_manager self) file_name
              (add_sleep 1 (add_request (uri_of file_name) (set_semaphore n w)))
              (Hnever _)) as [e2 ->].
  destruct (download_attempt_no_body env (file_manager self) file_name
              (add_sleep 2 (add_request (uri_of file_name)
                 (add_sleep 1 (add_request (uri_of file_name) (set_semaphore n w)))))
              (Hnever _)) as [e3 ->].
  rewrite handle_retry_error. cbn.
  split; [reflexivity|]. split; [now rewrite <- !app_assoc|].
  split; [now rewrite <- !app_assoc|].
  exists e3. rewrite drop_app_length. reflexivity.
Qed.

Lemma server_503_never_delivers uri : never_delivers server_503 uri.
Proof. intros n. cbn. lia. Qed.

Lemma undelivered_item_leaves_files_witness :
  let w' := snd (process_file server_503 FileController_init "Divvy_Trips_2019_Q4.zip"
                   (initial_world {[ "notes.txt" := [Byte.x41] ]})) in
  files w' = files (initial_world {[ "notes.txt" := [Byte.x41] ]}) /\
  requests w' = requests (initial_world {[ "notes.txt" := [Byte.x41] ]})
                ++ replicate 3 (uri_of "Divvy_Trips_2019_Q4.zip") /\
  sleeps w' = sleeps (initial_world {[ "notes.txt" := [Byte.x41] ]}) ++ [1; 2] /\
  exists cause,
    map record_outcome
      (drop (length (records (initial_world {[ "notes.txt" := [Byte.x41] ]}))) (records w'))
    = [Some (RetriesExhausted cause)].
Proof.
  apply (undelivered_item_leaves_files server_503 FileController_init
           "Divvy_Trips_2019_Q4.zip" (initial_world {[ "notes.txt" := [Byte.x41] ]}) 4).
  - reflexivity.
  - apply server_503_never_delivers.
Defined.

(** ** What a whole run spends *)

Lemma terminal_tasks_hold_nothing (ts : list Task) :
  forallb is_terminal ts = true ->
  Forall (fun t => holds_slot t = is_downloading t) ts ->
  sum_list_with slot_count ts = 0%nat /\ Forall (fun t => holds_slot t = false) ts.
Proof.
  induction ts as [|t ts IH]; intros Hall Hhold; [split; [reflexivity | constructor]|].
  cbn in Hall. apply andb_true_iff in Hall as [Ht Hall].
  apply Forall_cons in Hhold as [Hht Hhold].
  destruct (IH Hall Hhold) as [Hsum Hnone].
  assert (Hfalse : holds_slot t = false).
  { rewrite Hht. unfold is_downloading, is_terminal in *.
    destruct (stage t); try discriminate; reflexivity. }
  split; [|constructor; assumption].
  cbn. unfold slot_count at 1. now rewrite Hfalse, Hsum.
Qed.

(** X9: When [process_files] has returned, every slot of the semaphore is back
    and no task holds one, whichever items failed. *)
Theorem slots_are_back_at_return env self fs schedule :
  let r := run_schedule env self schedule (initial_run fs) in
  main r = Returned ->
  semaphore (world r) = 5%nat /\ Forall (fun t => holds_slot t = false) (tasks r).
Proof.
  intros r Hmain.
  assert (Hinv : run_invariant env self fs r)
    by apply run_schedule_invariant, initial_run_invariant.
  destruct Hinv as [Hslots Hhold _ _ Hlog _]. rewrite Hmain in Hlog.
  destruct Hlog as (_ & items & _ & _ & Hover).
  destruct (terminal_tasks_hold_nothing _ Hover Hhold) as [Hsum Hnone].
  rewrite Hsum in Hslots. unfold SEMAPHORE_VALUE in Hslots.
  split; [lia | exact Hnone].
Qed.

Lemma slots_are_back_at_return_witness :
  let r := run_schedule server_divvy FileController_init schedule_backwards (initial_run ∅) in
  semaphore (world r) = 5%nat /\ Forall (fun t => holds_slot t = false) (tasks r).
Proof.
  apply (slots_are_back_at_return server_divvy FileController_init ∅ schedule_backwards).
  vm_compute. reflexivity.
Defined.

Lemma total_sleep_add_sleep seconds w :
  total_sleep (add_sleep seconds w) = total_sleep w + seconds.
Proof.
  unfold total_sleep. cbn [sleeps add_sleep].
  induction (sleeps w) as [|s l IH]; cbn; [lia | rewrite IH; lia].
Qed.

Lemma sum_seconds_left_middle (l1 l2 : list Task) (t : Task) :
  sum_seconds_left (l1 ++ t :: l2)
  = seconds_left t + (sum_seconds_left l1 + sum_seconds_left l2).
Proof.
  unfold sum_seconds_left. induction l1 as [|x l1 IH]; cbn; [lia | rewrite IH; lia].
Qed.

Lemma seconds_left_nonneg (t : Task) : 0 <= seconds_left t.
Proof.
  unfold seconds_left. destruct (stage t) as [|a|p| | |e]; try lia.
  destruct a as [|[|[|a]]]; lia.
Qed.

Lemma sum_seconds_left_nonneg (ts : list Task) : 0 <= sum_seconds_left ts.
Proof.
  unfold sum_seconds_left. induction ts as [|t ts IH]; cbn; [lia|].
  pose proof (seconds_left_nonneg t). lia.
Qed.

Lemma sum_seconds_left_new_tasks (names : list string) :
  sum_seconds_left (map new_task names) = 3 * Z.of_nat (length names).
Proof.
  unfold sum_seconds_left. induction names as [|x l IH]; [reflexivity|].
  cbn [map foldr length]. rewrite IH. cbn [seconds_left new_task stage]. lia.
Qed.

Lemma attempts_left_new_tasks (names : list string) :
  sum_list_with attempts_left (map new_task names) = (3 * length names)%nat.
Proof. induction names as [|x l IH]; [reflexivity|]. cbn in *. lia. Qed.

(** What one resumption of a task spends is taken from what it had left. *)
Lemma step_task_counts env self t w t' w' :
  step_task env self t w = Some (t', w') ->
  attempt_in_range t ->
  attempt_in_range t' /\
  (length (requests w') + attempts_left t' <= length (requests w) + attempts_left t)%nat /\
  total_sleep w' + seconds_left t' <= total_sleep w + seconds_left t.
Proof.
  unfold step_task, attempt_in_range, attempts_left, seconds_left, total_sleep.
  destruct t as [name st holds]; cbn [task_name stage holds_slot].
  destruct st as [|a|p| | |e]; try discriminate.
  - unfold semaphore_acquire. destruct (semaphore w); [discriminate|].
    intros [= <- <-] _. cbn. repeat split; lia.
  - destruct (download_attempt_frame env (file_manager self) name w) as [[Hrq Hsl _ _ _] _].
    destruct (download_attempt env (file_manager self) name w) as [[p|e|] w1];
      cbn [fst snd] in *; [| |discriminate].
    + intros [= <- <-] Ha. cbn. rewrite Hrq, Hsl, length_app. cbn.
      split; [exact I|]. split; [lia|].
      destruct a as [|[|[|a]]]; lia.
    + destruct (stop_after_attempt 3 a) eqn:Hstop.
      * destruct (handle_reports name (RetryError e) (semaphore_release w1)) as (rec & Hh & _).
        rewrite Hh. cbn [settle]. intros [= <- <-] Ha. cbn. rewrite Hrq, Hsl, length_app. cbn.
        split; [exact I|]. split; [lia|].
        destruct a as [|[|[|a]]]; lia.
      * intros [= <- <-] Ha. unfold stop_after_attempt in Hstop.
        apply Nat.leb_gt in Hstop.
        fold (total_sleep (add_sleep (wait_exponential 1 1 10 a) w1)).
        rewrite total_sleep_add_sleep. unfold total_sleep.
        cbn [requests add_sleep stage]. rewrite Hrq, Hsl, length_app. cbn [length].
        split; [lia|]. split; [lia|].
        destruct a as [|[|[|a]]]; [lia | | | lia].
        -- change (wait_exponential 1 1 10 1) with 1. cbn. lia.
        -- change (wait_exponential 1 1 10 2) with 2. cbn. lia.
  - unfold bind, extract_zip_in_thread.
    destruct (extract_zip_spec env (file_manager self) p w) as ((Hrq & Hsl & _ & _) & _).
    destruct (extract_zip env (file_manager self) p w) as [[u|e|] w1];
      cbn [fst snd] in *; [| |discriminate].
    + intros [= <- <-] _. cbn. rewrite Hrq, Hsl. repeat split; lia.
    + destruct (handle_reports name e w1) as (rec & Hh & _).
      rewrite Hh. cbn [settle]. intros [= <- <-] _. cbn. rewrite Hrq, Hsl. repeat split; lia.
Qed.

Lemma initial_run_counts self fs : run_counts self (initial_run fs).
Proof. constructor; cbn; [constructor | lia | lia | unfold total_sleep, sum_seconds_left; cbn; lia]. Qed.

Lemma step_preserves_counts env self fs c r r' :
  run_invariant env self fs r ->
  run_counts self r ->
  step env self c r = Some r' ->
  run_counts self r'.
Proof.
  intros Hinv [Hrange Hlen Hreq Hsl] Hstep. destruct c as [|i].
  - cbn in Hstep.
    pose proof (inv_names _ _ _ _ Hinv) as Hnames.
    destruct (main r) eqn:Hmain;
      [rewrite (step_main_start env self r Hmain) in Hstep
      | unfold step_main in Hstep; rewrite Hmain in Hstep
      | unfold step_main in Hstep; rewrite Hmain in Hstep; discriminate
      | unfold step_main in Hstep; rewrite Hmain in Hstep; discriminate].
    + destruct (os_makedirs env (files (world r)) (download_dir (file_manager self)));
        injection Hstep as <-; [constructor; cbn [world tasks]; auto|].
      rewrite Hnames in *. cbn in Hreq, Hsl.
      unfold sum_seconds_left in Hsl. cbn in Hsl.
      constructor; cbn [world tasks].
      * apply Forall_forall. intros t Ht. apply list_elem_of_fmap in Ht as (x & -> & _).
        exact I.
      * rewrite length_map. lia.
      * rewrite length_map, attempts_left_new_tasks. cbn. lia.
      * rewrite length_map, sum_seconds_left_new_tasks.
        unfold total_sleep in *. cbn. lia.
    + rewrite (first_crash_none _ (inv_no_crash _ _ _ _ Hinv)) in Hstep.
      destruct (forallb is_terminal (tasks r)); [|discriminate].
      cbn in Hstep. injection Hstep as <-.
      constructor; cbn [world tasks]; auto.
  - destruct (step_inversion _ _ _ _ _ Hstep) as (_ & t & t' & w' & Ht & Hst & ->).
    destruct (insert_decompose (tasks r) i t t' Ht) as (l1 & l2 & Hl & Hl').
    rewrite Hl in *. apply Forall_app in Hrange as [Hr1 Hr2].
    apply Forall_cons in Hr2 as [Hrt Hr2].
    destruct (step_task_counts _ _ _ _ _ _ Hst Hrt) as (Hrt' & Hq & Hs).
    constructor; cbn [world tasks]; rewrite Hl'.
    + apply Forall_app. split; [exact Hr1|]. apply Forall_cons. split; assumption.
    + rewrite length_app in *. cbn [length] in *. lia.
    + rewrite sum_list_map_middle in *. rewrite length_app in *. cbn [length] in *. lia.
    + rewrite sum_seconds_left_middle in *. rewrite length_app in *. cbn [length] in *. lia.
Qed.

Lemma run_schedule_counts env self fs schedule r :
  run_invariant env self fs r -> run_counts self r ->
  run_counts self (run_schedule env self schedule r).
Proof.
  revert r. induction schedule as [|c rest IH]; intros r Hinv Hcnt; [exact Hcnt|].
  cbn. destruct (step env self c r) as [r'|] eqn:Hstep.
  - apply IH; [eapply step_preserves_invariant | eapply step_preserves_counts]; eassumption.
  - now apply IH.
Qed.

(** X10: In every state of every run, the GETs issued so far are at most 3 per
    name of the list, and the seconds slept between attempts at most 3 per
    name. *)
Theorem run_spends_at_most_three_per_item env self fs schedule :
  let r := run_schedule env self schedule (initial_run fs) in
  (length (requests (world r)) <= 3 * length (file_names self))%nat /\
  total_sleep (world r) <= 3 * Z.of_nat (length (file_names self)).
Proof.
  intros r.
  assert (Hcnt : run_counts self r)
    by (apply (run_schedule_counts env self fs);
        [apply initial_run_invariant | apply initial_run_counts]).
  destruct Hcnt as [_ _ Hreq Hsl].
  pose proof (sum_seconds_left_nonneg (tasks r)). split; lia.
Qed.

(** ** main.py *)





(** ** The TLS context *)

(** X13: [get_ssl_context] does not raise, whatever [verify_ssl] is: the host
    name is checked and a certificate required exactly when [verify_ssl] is
    set.  It switches the host name check off before the verification; the
    other way round the second assignment would raise. *)
Theorem get_ssl_context_follows_verify_ssl (self : FileManager) :
  get_ssl_context self
  = inr {| check_hostname := verify_ssl self;
           verify_mode := if verify_ssl self then CERT_REQUIRED else CERT_NONE |} /\
  set_verify_mode CERT_NONE create_default_context
  = inl "Cannot set verify_mode to CERT_NONE when check_hostname is enabled.".
Proof.
  unfold get_ssl_context. destruct (verify_ssl self); split; reflexivity.
Qed.

(** ** A name that is listed twice *)

Lemma run_schedule_step env self c rest r r' :
  step env self c r = Some r' ->
  run_schedule env self (c :: rest) r = run_schedule env self rest r'.
Proof. intros H. cbn. now rewrite H. Qed.

Lemma step_task_lookup env self i r t t' w' :
  main r = Gathering ->
  tasks r !! i = Some t ->
  step_task env self t (world r) = Some (t', w') ->
  step env self (ResumeTask i) r
  = Some {| world := w'; tasks := <[i := t']> (tasks r); main := Gathering |}.
Proof.
  intros Hmain Ht Hst. unfold step. rewrite Hmain, Ht. cbn. rewrite Hst. reflexivity.
Qed.

Lemma step_task_download_returns env self file_name a holds w p w1 :
  download_attempt env (file_manager self) file_name w = (Return p, w1) ->
  step_task env self {| task_name := file_name; stage := Downloading a; holds_slot := holds |} w
  = Some ({| task_name := file_name; stage := Extracting p; holds_slot := false |},
          semaphore_release w1).
Proof. intros H. unfold step_task. cbn [stage task_name]. now rewrite H. Qed.

Lemma step_task_extract env self file_name p holds w :
  step_task env self {| task_name := file_name; stage := Extracting p; holds_slot := holds |} w
  = match extract_zip env (file_manager self) p w with
    | (Return _, w') =>
        Some ({| task_name := file_name; stage := Done; holds_slot := false |},
              add_record {| level := INFO; message := "Processed " +:+ file_name;
                            event := ItemEvent file_name Success |} w')
    | (Raise e, w') => Some (settle file_name (handle file_name e w'))
    | (Blocked, _) => None
    end.
Proof.
  unfold step_task. cbn [stage task_name]. unfold bind, extract_zip_in_thread.
  destruct (extract_zip env (file_manager self) p w) as [[u|e|] w']; reflexivity.
Qed.

Lemma download_attempt_delivers env self file_name w r :
  http_get env (uri_of file_name)
    (count_occ String.string_dec (requests w) (uri_of file_name)) = GetResponse r ->
  status r < 400 -> content_end r = Eof ->
  download_attempt env self file_name w
  = (Return (os_path_join (download_dir self) file_name),
     set_files (fun fs => <[os_path_join (download_dir self) file_name
                            := concat (content r)]> fs)
       (add_writes (map (pair (os_path_join (download_dir self) file_name))
                      (iter_chunked 1024 r))
          (add_request (uri_of file_name) w))).
Proof.
  intros Hget Hs He. rewrite download_attempt_unfold, Hget.
  destruct (Z.eqb_spec (status r) 404) as [|_]; [lia|].
  destruct (Z.leb_spec 400 (status r)) as [|_]; [lia|].
  now rewrite He.
Qed.

Lemma extract_zip_intact env self file_path w data :
  extraction_only_writes env ->
  files w !! file_path = Some data ->
  zip_open env data = None ->
  (zip_extractall env data (download_dir self) (files w)).2 = None ->
  extract_zip env self file_path w
  = (Return tt,
     set_files (fun _ => delete file_path
                           (zip_extractall env data (download_dir self) (files w)).1) w).
Proof.
  intros Honly Hfile Hopen Hex.
  rewrite extract_zip_unfold, Hfile, Hopen.
  pose proof (Honly data (download_dir self) (files w) file_path) as Hkeep.
  destruct (zip_extractall env data (download_dir self) (files w)) as [fs error].
  cbn [fst snd] in *. subst error.
  unfold os_remove. cbn [files set_files].
  destruct Hkeep as [old Hold]; [rewrite Hfile; eauto|].
  now rewrite Hold.
Qed.

(** X14: When the list holds the same name twice, the directory can be made
    and the server delivers to both tasks an archive that [zipfile] extracts,
    the task that extracts second finds the archive removed by the first
    one: the item is logged once as processed and once as "not found on the
    server", although both GETs were answered. *)
Theorem duplicate_name_is_reported_not_found env self fs file_name r0 r1 :
  file_names self = [file_name; file_name] ->
  os_makedirs env fs (download_dir (file_manager self)) = None ->
  http_get env (uri_of file_name) 0 = GetResponse r0 ->
  http_get env (uri_of file_name) 1 = GetResponse r1 ->
  status r0 < 400 -> content_end r0 = Eof ->
  status r1 < 400 -> content_end r1 = Eof ->
  extraction_only_writes env ->
  zip_open env (concat (content r1)) = None ->
  (forall fs0,
     (zip_extractall env (concat (content r1)) (download_dir (file_manager self)) fs0).2
     = None) ->
  let r := run_schedule env self schedule_twice (initial_run fs) in
  main r = Returned /\
  requests (world r) = [uri_of file_name; uri_of file_name] /\
  map record_outcome (records (world r)) = [None; Some Success; Some NotFound; None] /\
  map message (records (world r))
  = ["Starting to process files"; "Processed " +:+ file_name;
     file_name +:+ " not found on the server."; "Finished processing files"].
Proof.
  intros Hnames Hmk Hg0 Hg1 Hs0 He0 Hs1 He1 Honly Hopen Hextract r. subst r.
  set (fm := file_manager self) in *.
  set (zip_path := os_path_join (download_dir fm) file_name).
  set (uri := uri_of file_name).
  unfold schedule_twice.
  (* the start *)
  erewrite run_schedule_step.
  2:{ unfold step. rewrite step_main_start by reflexivity.
      cbn [world initial_run files initial_world]. fold fm. rewrite Hmk, Hnames.
      reflexivity. }
  cbn [map].
  (* both tasks enter the with block *)
  erewrite run_schedule_step by (eapply step_task_lookup; reflexivity).
  cbn [tasks world].
  erewrite run_schedule_step by (eapply step_task_lookup; reflexivity).
  cbn [tasks world].
  (* both download *)
  erewrite run_schedule_step.
  2:{ eapply step_task_lookup; [reflexivity | reflexivity |].
      apply step_task_download_returns.
      apply (download_attempt_delivers env fm file_name _ r0); [exact Hg0 | exact Hs0 | exact He0]. }
  cbn [tasks world].
  erewrite run_schedule_step.
  2:{ eapply step_task_lookup; [reflexivity | reflexivity |].
      apply step_task_download_returns.
      apply (download_attempt_delivers env fm file_name _ r1); [|exact Hs1 | exact He1].
      cbn [requests world semaphore_release set_semaphore set_files add_request add_record
             add_writes initial_run initial_world app count_occ].
      destruct (String.string_dec (uri_of file_name) (uri_of file_name)); [exact Hg1 | contradiction]. }
  cbn [tasks world].
  (* the first task extracts and removes the archive *)
  erewrite run_schedule_step.
  2:{ eapply step_task_lookup; [reflexivity | reflexivity |].
      rewrite step_task_extract.
      erewrite (extract_zip_intact env fm _ _ (concat (content r1)));
        [reflexivity | exact Honly | | exact Hopen | apply Hextract].
      cbn. apply lookup_insert_eq. }
  cbn [tasks world].
  (* the second task finds no archive *)
  erewrite run_schedule_step.
  2:{ eapply step_task_lookup; [reflexivity | reflexivity |].
      rewrite step_task_extract, extract_zip_missing by (cbn; apply lookup_delete_eq).
      reflexivity. }
  cbn [tasks world].
  (* the end *)
  erewrite run_schedule_step by reflexivity.
  cbn. repeat split; reflexivity.
Qed.

Lemma duplicate_name_is_reported_not_found_witness :
  let file_name := "Divvy_Trips_2018_Q4.zip" in
  let r := run_schedule server_divvy controller_twice schedule_twice (initial_run ∅) in
  main r = Returned /\
  requests (world r) = [uri_of file_name; uri_of file_name] /\
  map record_outcome (records (world r)) = [None; Some Success; Some NotFound; None] /\
  map message (records (world r))
  = ["Starting to process files"; "Processed " +:+ file_name;
     file_name +:+ " not found on the server."; "Finished processing files"].
Proof.
  intros file_name.
  apply (duplicate_name_is_reported_not_found server_divvy controller_twice ∅ file_name
           {| status := 200; content := [sample_body]; content_end := Eof |}
           {| status := 200; content := [sample_body]; content_end := Eof |});
    try reflexivity.
  apply sample_extraction_only_writes.
Defined.
